(** * TradeSupport frontend: the reconnecting WebSocket client and the start request

    A shallow embedding of

    - [hooks/useWebSocket.ts]: the [useWebSocket] hook (the "Reconnecting
      Client"): its React state, its three refs, the handlers it installs on
      every socket it constructs, the mount effect with its cleanup, and
      [clearMessages];
    - [services/api.ts]: [api.startAnalysis];
    - [App.tsx]: [handleStartAnalysis];
    - [types/index.ts]: the tagged messages of the stream.

    The browser is part of the state: the sockets constructed so far with
    their [readyState], the pending timeouts with the time they are due, a
    millisecond clock, the console, and the HTTP requests issued. *)

From stdpp Require Import base option list gmap strings pretty.
From Stdlib Require Import NArith Lia.

Open Scope string_scope.
Open Scope list_scope.
Set Warnings "-register-all".

(** ** JavaScript values, as [JSON.parse] and [response.json()] produce them *)

(** A number is kept by its canonical rendering ([Number::toString]): it is all
    the hook and the page ever do with one ([-0] renders as ["0"]). An object
    is the list of its own properties; a property is read at its first
    occurrence. [VUndefined] is what reading an absent property gives; no
    parser produces it. *)
Inductive value :=
| VUndefined
| VNull
| VBool (b : bool)
| VNum (repr : string)
| VStr (s : string)
| VArr (items : list value)
| VObj (props : list (string * value)).

(** What the code can throw or be rejected with: an [Error] (or a subclass)
    carrying a message, a [TypeError] the engine raises itself, or any other
    value. *)
Inductive error_kind := Error | TypeError | SyntaxError.

(** Why the engine raises a [TypeError] in this code: a property of [null]
    or of [undefined] is read, or an object cannot be converted to a
    primitive value. The message of such an error is worded by the engine
    and differs from one engine to the other. *)
Inductive engine_error :=
| read_of_null (key : string)
| read_of_undefined (key : string)
| not_primitive.

Inductive thrown :=
| Err (kind : error_kind) (message : string)
| Raised (cause : engine_error)
| Other (v : value).

(** [err instanceof Error] *)
Definition instanceof_Error (e : thrown) : bool :=
  match e with Err _ _ | Raised _ => true | Other _ => false end.

(** [err.message], read only after [instanceof_Error]; [wording] is the
    text the engine gives its own errors *)
Definition message_of (wording : engine_error → string) (e : thrown) : string :=
  match e with Err _ m => m | Raised cause => wording cause | Other _ => "" end.

(** the wording of V8, one engine among others *)
Definition v8_wording (cause : engine_error) : string :=
  match cause with
  | read_of_null key => "Cannot read properties of null (reading '" +:+ key +:+ "')"
  | read_of_undefined key =>
      "Cannot read properties of undefined (reading '" +:+ key +:+ "')"
  | not_primitive => "Cannot convert object to primitive value"
  end.

(** The outcome of an expression that may throw (or of an awaited promise). *)
Inductive completion (A : Type) :=
| Normal (a : A)
| Throw (e : thrown).
Arguments Normal {A} a.
Arguments Throw {A} e.

(** the object has a property [key] of its own *)
Fixpoint has_own (props : list (string * value)) (key : string) : bool :=
  match props with
  | [] => false
  | (k, _) :: rest => String.eqb k key || has_own rest key
  end.

(** Template-literal and [new Error(x)] conversion of a value to a string.
    An array is converted by [Array.prototype.join], which renders [null] and
    [undefined] items as empty and converts the others in turn. An object is
    converted by the [toString] it has: [Object.prototype.toString] unless
    it has a property [toString] of its own, which, being a parsed value, is
    not callable; the conversion then falls back on [valueOf], which gives no
    primitive either, and throws a [TypeError]. *)
Fixpoint ToString (v : value) : completion string :=
  match v with
  | VUndefined => Normal "undefined"
  | VNull => Normal "null"
  | VBool true => Normal "true"
  | VBool false => Normal "false"
  | VNum r => Normal r
  | VStr s => Normal s
  | VArr items =>
      (fix join (l : list value) : completion string :=
         match l with
         | [] => Normal ""
         | x :: rest =>
             match match x with
                   | VUndefined | VNull => Normal ""
                   | _ => ToString x
                   end
             with
             | Throw e => Throw e
             | Normal sx =>
                 match rest with
                 | [] => Normal sx
                 | _ :: _ =>
                     match join rest with
                     | Normal sr => Normal (sx +:+ "," +:+ sr)
                     | Throw e => Throw e
                     end
                 end
             end
         end) items
  | VObj props =>
      if has_own props "toString" then Throw (Raised not_primitive)
      else Normal "[object Object]"
  end.

(** The conversion of a value to a primitive, as [new Date(x)] does it
    first: an object or an array becomes the string it converts to, or the
    conversion throws. *)
Definition ToPrimitive (v : value) : completion value :=
  match v with
  | VArr _ | VObj _ =>
      match ToString v with
      | Normal s => Normal (VStr s)
      | Throw e => Throw e
      end
  | _ => Normal v
  end.

(** Truthiness, as [||] and [if] test it. *)
Definition truthy (v : value) : bool :=
  match v with
  | VUndefined | VNull => false
  | VBool b => b
  | VNum r => negb (String.eqb r "0") && negb (String.eqb r "NaN")
  | VStr s => negb (String.eqb s "")
  | VArr _ | VObj _ => true
  end.

(** [v === 'lit'] against a string literal. *)
Definition strict_eq_str (v : value) (lit : string) : bool :=
  match v with VStr s => String.eqb s lit | _ => false end.

Fixpoint own_property (props : list (string * value)) (key : string) : value :=
  match props with
  | [] => VUndefined
  | (k, v) :: rest => if String.eqb k key then v else own_property rest key
  end.

(** [v.key] for the property names the code reads ([type], [message], [ts],
    [state], [payload], [detail]): none of them exists on an array, a string,
    a number or a boolean, and reading any property of [null] or [undefined]
    throws a [TypeError]. *)
Definition get_prop (v : value) (key : string) : completion value :=
  match v with
  | VObj props => Normal (own_property props key)
  | VNull => Throw (Raised (read_of_null key))
  | VUndefined => Throw (Raised (read_of_undefined key))
  | _ => Normal VUndefined
  end.

(** ** Requests ([types/index.ts]) *)

Inductive ResearchDepth := quick | standard | deep.

Record AnalystConfig := {
  market : bool; social : bool; news : bool; fundamentals : bool; momentum : bool }.

Record ConfigFormData := {
  ticker : string;
  analysisDate : string;
  analysts : AnalystConfig;
  researchDepth : ResearchDepth;
  llmProvider : string;
  shallowModel : string;
  deepModel : string }.

Record AnalysisRequest := {
  req_ticker : string;
  req_analysis_date : string;
  req_analysts : AnalystConfig;
  req_research_depth : N;
  req_llm_provider : string;
  req_shallow_model : string;
  req_deep_model : string }.

(** An HTTP request as [fetch] is given it. *)
Record http_request := {
  http_method : string;
  http_path : string;
  http_body : option AnalysisRequest }.

(** What the code looks at in a [Response]: [ok] and the outcome of
    [response.json()]. *)
Record Response := {
  ok : bool;
  json : completion value }.

(** ** The state: hook, page and browser *)

Inductive readyState := CONNECTING | OPEN | CLOSING | CLOSED.

#[global] Instance readyState_eq_dec : EqDecision readyState.
Proof. solve_decision. Defined.

Inductive console_arg :=
| Text (s : string)
| Val (v : value)
| Exn (e : thrown)
| Req (r : AnalysisRequest)
| Evt.

Inductive console_level := level_log | level_error.

Record console_call := { level : console_level; args : list console_arg }.

(** [RECONNECT_DELAY], in milliseconds *)
Definition RECONNECT_DELAY : N := 3000.

Record world := World {
  (* useWebSocket: React state *)
  isConnected : bool;
  messages : list string;
  state : value;
  (* useWebSocket: refs *)
  wsRef : option nat;
  reconnectTimeoutRef : option positive;
  shouldConnectRef : bool;
  (* App: React state read by the start handler *)
  error : option string;
  isStarting : bool;
  (* browser *)
  sockets : list readyState;      (* the i-th WebSocket constructed *)
  timers : gmap positive N;       (* pending timeouts: id to due time *)
  next_timer : positive;          (* the id the next setTimeout returns *)
  now : N;                        (* clock, ms *)
  console : list console_call;
  requests : list http_request    (* fetch calls issued *) }.

Definition setIsConnected (b : bool) (w : world) : world :=
  World b (messages w) (state w) (wsRef w) (reconnectTimeoutRef w)
    (shouldConnectRef w) (error w) (isStarting w) (sockets w) (timers w)
    (next_timer w) (now w) (console w) (requests w).

(** [setMessages] with an updater function *)
Definition setMessages (f : list string → list string) (w : world) : world :=
  World (isConnected w) (f (messages w)) (state w) (wsRef w)
    (reconnectTimeoutRef w) (shouldConnectRef w) (error w) (isStarting w)
    (sockets w) (timers w) (next_timer w) (now w) (console w) (requests w).

Definition setState (v : value) (w : world) : world :=
  World (isConnected w) (messages w) v (wsRef w) (reconnectTimeoutRef w)
    (shouldConnectRef w) (error w) (isStarting w) (sockets w) (timers w)
    (next_timer w) (now w) (console w) (requests w).

Definition set_wsRef (r : option nat) (w : world) : world :=
  World (isConnected w) (messages w) (state w) r (reconnectTimeoutRef w)
    (shouldConnectRef w) (error w) (isStarting w) (sockets w) (timers w)
    (next_timer w) (now w) (console w) (requests w).

Definition set_reconnectTimeoutRef (r : option positive) (w : world) : world :=
  World (isConnected w) (messages w) (state w) (wsRef w) r
    (shouldConnectRef w) (error w) (isStarting w) (sockets w) (timers w)
    (next_timer w) (now w) (console w) (requests w).

Definition set_shouldConnectRef (b : bool) (w : world) : world :=
  World (isConnected w) (messages w) (state w) (wsRef w)
    (reconnectTimeoutRef w) b (error w) (isStarting w) (sockets w)
    (timers w) (next_timer w) (now w) (console w) (requests w).

Definition setError (e : option string) (w : world) : world :=
  World (isConnected w) (messages w) (state w) (wsRef w)
    (reconnectTimeoutRef w) (shouldConnectRef w) e (isStarting w) (sockets w)
    (timers w) (next_timer w) (now w) (console w) (requests w).

Definition setIsStarting (b : bool) (w : world) : world :=
  World (isConnected w) (messages w) (state w) (wsRef w)
    (reconnectTimeoutRef w) (shouldConnectRef w) (error w) b (sockets w)
    (timers w) (next_timer w) (now w) (console w) (requests w).

Definition set_sockets (l : list readyState) (w : world) : world :=
  World (isConnected w) (messages w) (state w) (wsRef w)
    (reconnectTimeoutRef w) (shouldConnectRef w) (error w) (isStarting w)
    l (timers w) (next_timer w) (now w) (console w) (requests w).

Definition set_timers (t : gmap positive N) (n : positive) (w : world) : world :=
  World (isConnected w) (messages w) (state w) (wsRef w)
    (reconnectTimeoutRef w) (shouldConnectRef w) (error w) (isStarting w)
    (sockets w) t n (now w) (console w) (requests w).

Definition set_now (t : N) (w : world) : world :=
  World (isConnected w) (messages w) (state w) (wsRef w)
    (reconnectTimeoutRef w) (shouldConnectRef w) (error w) (isStarting w)
    (sockets w) (timers w) (next_timer w) t (console w) (requests w).

Definition console_push (c : console_call) (w : world) : world :=
  World (isConnected w) (messages w) (state w) (wsRef w)
    (reconnectTimeoutRef w) (shouldConnectRef w) (error w) (isStarting w)
    (sockets w) (timers w) (next_timer w) (now w) (console w ++ [c])
    (requests w).

Definition requests_push (r : http_request) (w : world) : world :=
  World (isConnected w) (messages w) (state w) (wsRef w)
    (reconnectTimeoutRef w) (shouldConnectRef w) (error w) (isStarting w)
    (sockets w) (timers w) (next_timer w) (now w) (console w)
    (requests w ++ [r]).

Definition console_log (a : list console_arg) : world → world :=
  console_push {| level := level_log; args := a |}.

Definition console_error (a : list console_arg) : world → world :=
  console_push {| level := level_error; args := a |}.

(** ** Handler bodies: state passing with exceptions *)

(** A computation runs on the world and either completes or throws; what it
    did to the world before throwing stays done. *)
Definition JS (A : Type) : Type := world → completion A * world.

#[global] Instance JS_ret : MRet JS := λ A a w, (Normal a, w).

#[global] Instance JS_bind : MBind JS := λ A B k m w,
  match m w with
  | (Normal a, w') => k a w'
  | (Throw e, w') => (Throw e, w')
  end.

(** an expression that may throw and has no effect *)
Definition eval {A} (c : completion A) : JS A := λ w, (c, w).

(** a statement that cannot throw *)
Definition exec (f : world → world) : JS unit := λ w, (Normal tt, f w).

Definition throw {A} (e : thrown) : JS A := λ w, (Throw e, w).

(** [try { body } catch (e) { handler }] *)
Definition try_catch (body : JS unit) (handler : thrown → JS unit) : JS unit :=
  λ w, match body w with
       | (Normal _, w') => (Normal tt, w')
       | (Throw e, w') => handler e w'
       end.

(** run a block that lets no exception escape *)
Definition run_block (m : JS unit) (w : world) : world := (m w).2.

(** ** Timers and sockets of the browser *)

(** [setTimeout(() => connect(), delay)]: the hook schedules no other
    callback, so a pending timer is its id and the time it is due. Ids are
    positive, hence truthy. *)
Definition setTimeout (delay : N) (w : world) : positive * world :=
  let id := next_timer w in
  (id, set_timers (<[id := (now w + delay)%N]> (timers w)) (Pos.succ id) w).

Definition clearTimeout (id : positive) (w : world) : world :=
  set_timers (delete id (timers w)) (next_timer w) w.

(** [ws.close()]: a socket that is connecting or open starts closing; its
    close event comes later. *)
Definition WebSocket_close (s : nat) (w : world) : world :=
  match sockets w !! s with
  | Some CONNECTING | Some OPEN => set_sockets (<[s := CLOSING]> (sockets w)) w
  | _ => w
  end.

(** [wsRef.current?.readyState] *)
Definition wsRef_readyState (w : world) : option readyState :=
  s ← wsRef w; sockets w !! s.

(** ** [useWebSocket] *)

Section Hook.

(** [new Date(ts).toLocaleTimeString()], which depends on the locale and
    the time zone of the browser *)
Variable toLocaleTimeString : value → string.

(** [useState(false)], [useState([])], [useState('idle')], [useRef(null)]
    twice, [useRef(true)], in a browser that has done nothing yet. *)
Definition useWebSocket_init : world :=
  {| isConnected := false; messages := []; state := VStr "idle";
     wsRef := None; reconnectTimeoutRef := None; shouldConnectRef := true;
     error := None; isStarting := false;
     sockets := []; timers := ∅; next_timer := 1%positive; now := 0%N;
     console := []; requests := [] |}.

(** [connect]. The socket it constructs gets the four handlers below; they
    do not mention the socket they are installed on. *)
Definition connect (w : world) : world :=
  if bool_decide (wsRef_readyState w = Some OPEN) || negb (shouldConnectRef w)
  then w
  else
    let w := console_log [Text "Connecting to WebSocket..."] w in
    let ws := length (sockets w) in
    let w := set_sockets (sockets w ++ [CONNECTING]) w in
    set_wsRef (Some ws) w.

(** [ws.onopen] *)
Definition onopen (w : world) : world :=
  let w := console_log [Text "WebSocket connected"] w in
  let w := setIsConnected true w in
  match reconnectTimeoutRef w with
  | Some id => set_reconnectTimeoutRef None (clearTimeout id w)
  | None => w
  end.

(** The [try] block of [ws.onmessage]; [frame] is what
    [JSON.parse(event.data)] makes of the frame. The block returns what it
    has queued for the next render: the updater given to [setMessages] is
    not run inside the block but by React when it renders, and it is the
    updater that evaluates the template literal and so converts
    [data.message]. [new Date(data.ts)] is evaluated inside the block; the
    time format is applied to the primitive [data.ts] converts to. *)
Definition onmessage_try (frame : completion value) : JS (JS unit) :=
  data ← eval frame;
  ty ← eval (get_prop data "type");
  if strict_eq_str ty "ping" then mret (mret tt)
  else if strict_eq_str ty "log" then
    ts ← eval (get_prop data "ts");
    date ← eval (ToPrimitive ts);
    let timestamp := toLocaleTimeString date in
    msg ← eval (get_prop data "message");
    mret (text ← eval (ToString msg);
          exec (setMessages (λ prev, prev ++ ["[" +:+ timestamp +:+ "] " +:+ text])))
  else if strict_eq_str ty "status" then
    st ← eval (get_prop data "state");
    exec (setState st);;
    mret (mret tt)
  else if strict_eq_str ty "result" then
    payload ← eval (get_prop data "payload");
    exec (console_log [Text "Received result:"; Val payload]);;
    mret (mret tt)
  else mret (mret tt).

(** [ws.onmessage] and the render that follows it: the block with its
    [catch], then the queued updater. What the updater throws is thrown
    outside the handler, in the render. *)
Definition onmessage_render (frame : completion value) : JS unit :=
  λ w, match onmessage_try frame w with
       | (Normal queued, w') => queued w'
       | (Throw e, w') =>
           (Normal tt,
            console_error [Text "Failed to parse WebSocket message:"; Exn e] w')
       end.

(** the state [ws.onmessage] leaves: where the render throws, the state as
    the handler left it, the update being lost *)
Definition onmessage (frame : completion value) (w : world) : world :=
  (onmessage_render frame w).2.

(** [ws.onerror] *)
Definition onerror (w : world) : world :=
  console_error [Text "WebSocket error:"; Evt] w.

(** [ws.onclose] *)
Definition onclose (w : world) : world :=
  let w := console_log [Text "WebSocket disconnected"] w in
  let w := setIsConnected false w in
  let w := set_wsRef None w in
  if shouldConnectRef w then
    let w := console_log [Text ("Reconnecting in " +:+ pretty RECONNECT_DELAY +:+ "ms...")] w in
    let '(id, w) := setTimeout RECONNECT_DELAY w in
    set_reconnectTimeoutRef (Some id) w
  else w.

(** the mount effect *)
Definition mount (w : world) : world :=
  connect (set_shouldConnectRef true w).

(** its cleanup, run on unmount *)
Definition cleanup (w : world) : world :=
  let w := set_shouldConnectRef false w in
  let w := match reconnectTimeoutRef w with
           | Some id => clearTimeout id w
           | None => w
           end in
  match wsRef w with
  | Some s => set_wsRef None (WebSocket_close s w)
  | None => w
  end.

(** [clearMessages] *)
Definition clearMessages (w : world) : world := setMessages (λ _, []) w.

(** what the hook returns to its caller, next to [clearMessages] *)
Record UseWebSocketResult := {
  res_isConnected : bool;
  res_messages : list string;
  res_state : value }.

Definition useWebSocket_result (w : world) : UseWebSocketResult :=
  {| res_isConnected := isConnected w;
     res_messages := messages w;
     res_state := state w |}.

End Hook.

(** ** What the browser does to the hook *)

(** The events a mounted hook reacts to. [EvMessage] carries what
    [JSON.parse] makes of the frame. A timeout fires no earlier than it is
    due, and the error event of a connection is followed by its close event.
    [EvClosing] is the start of the closing handshake by the server: the
    open socket becomes [CLOSING] and no handler runs until its close
    event. *)
Inductive event :=
| EvOpen (s : nat)
| EvMessage (s : nat) (frame : completion value)
| EvError (s : nat)
| EvClosing (s : nat)
| EvClose (s : nat)
| EvTimeout (id : positive)
| EvTick (ms : N)
| EvClearMessages
| EvUnmount.

Definition set_readyState (s : nat) (st : readyState) (w : world) : world :=
  set_sockets (<[s := st]> (sockets w)) w.

Section Page.

Variable toLocaleTimeString : value → string.

(** One event: [None] when the browser cannot raise it in this state, and
    for a frame the page does not survive: an error thrown by a state
    updater is thrown in the render, where nothing catches it, and React
    unmounts the tree. *)
Definition dispatch (e : event) (w : world) : option world :=
  match e with
  | EvOpen s =>
      if bool_decide (sockets w !! s = Some CONNECTING)
      then Some (onopen (set_readyState s OPEN w)) else None
  | EvMessage s frame =>
      if bool_decide (sockets w !! s = Some OPEN)
      then match onmessage_render toLocaleTimeString frame w with
           | (Normal _, w') => Some w'
           | (Throw _, _) => None
           end
      else None
  | EvError s =>
      match sockets w !! s with
      | Some st => if bool_decide (st = CLOSED) then None else Some (onerror w)
      | None => None
      end
  | EvClosing s =>
      if bool_decide (sockets w !! s = Some OPEN)
      then Some (set_readyState s CLOSING w) else None
  | EvClose s =>
      match sockets w !! s with
      | Some st =>
          if bool_decide (st = CLOSED) then None
          else Some (onclose (set_readyState s CLOSED w))
      | None => None
      end
  | EvTimeout id =>
      match timers w !! id with
      | Some due =>
          if bool_decide (due ≤ now w)%N
          then Some (connect (clearTimeout id w)) else None
      | None => None
      end
  | EvTick ms => Some (set_now (now w + ms)%N w)
  | EvClearMessages => Some (clearMessages w)
  | EvUnmount => Some (cleanup w)
  end.

Fixpoint run (evs : list event) (w : world) : option world :=
  match evs with
  | [] => Some w
  | e :: rest => dispatch e w ≫= run rest
  end.

(** A connection loss on socket [s]: the close event, after an error event
    when the loss is not a clean close. *)
Definition loss (abnormal : bool) (s : nat) : list event :=
  (if abnormal then [EvError s] else []) ++ [EvClose s].

(** The states of a mounted hook: the mount effect has run on a fresh hook
    and the cleanup has not. *)
Inductive mounted : world → Prop :=
| mounted_mount : mounted (mount useWebSocket_init)
| mounted_step e w w' :
    mounted w → e ≠ EvUnmount → dispatch e w = Some w' → mounted w'.

End Page.

(** ** [api.startAnalysis] and [handleStartAnalysis] *)

Definition depthToValue (d : ResearchDepth) : N :=
  match d with quick => 1 | standard => 3 | deep => 5 end%N.

Section Api.

(** The network: the outcome of the [n]-th request issued ([Throw] when
    [fetch] rejects). The awaits of a handler are run to completion in one
    step. *)
Variable server : nat → completion Response.

(** the text the engine gives its own errors *)
Variable wording : engine_error → string.

Definition fetch (r : http_request) : JS Response :=
  λ w, (server (length (requests w)), requests_push r w).

(** [api.startAnalysis] *)
Definition startAnalysis (request : AnalysisRequest) : JS value :=
  exec (console_log [Req request]);;
  response ← fetch {| http_method := "POST"; http_path := "/api/start";
                      http_body := Some request |};
  if negb (ok response) then
    (* response.json().catch(() => ({ detail: 'Unknown error' })) *)
    let error :=
      match json response with
      | Normal v => v
      | Throw _ => VObj [("detail", VStr "Unknown error")]
      end in
    detail ← eval (get_prop error "detail");
    message ← eval (ToString (if truthy detail then detail
                              else VStr "Failed to start analysis"));
    throw (Err Error message)
  else eval (json response).

(** [handleStartAnalysis] of [App] *)
Definition handleStartAnalysis (config : ConfigFormData) : world → world :=
  run_block
    (try_catch
       (exec (setError None);;
        exec (setIsStarting true);;
        exec clearMessages;;
        let request :=
          {| req_ticker := ticker config;
             req_analysis_date := analysisDate config;
             req_analysts := analysts config;
             req_research_depth := depthToValue (researchDepth config);
             req_llm_provider := llmProvider config;
             req_shallow_model := shallowModel config;
             req_deep_model := deepModel config |} in
        startAnalysis request;; mret tt)
       (λ err,
          let message := if instanceof_Error err then message_of wording err
                         else "Failed to start analysis" in
          exec (setError (Some message));;
          exec (console_error [Text "Failed to start analysis:"; Exn err]);;
          exec (setIsStarting false))).

End Api.

(** ** Vocabulary of the statements *)

(** [data] is a message of type [t]: its [type] property is the string [t]. *)
Definition has_type (data : value) (t : string) : Prop :=
  get_prop data "type" = Normal (VStr t).

(** a [ResultMessage] of [types/index.ts] *)
Definition ResultMessage (payload : value) : value :=
  VObj [("type", VStr "result"); ("payload", payload)].

(** a hook whose first socket has opened *)
Definition connected_hook : world :=
  onopen (set_readyState 0 OPEN (mount useWebSocket_init)).

(** The caller of the hook holds what the hook returns and nothing else (the
    hook takes no argument, hence no callback). A result payload reaches the
    caller when the caller can read it off what the hook returns after the
    result message was handled. *)
Definition result_surfaced (toLocaleTimeString : value → string) (w : world) : Prop :=
  ∃ handle : UseWebSocketResult → option value,
    ∀ payload,
      handle (useWebSocket_result
                (onmessage toLocaleTimeString (Normal (ResultMessage payload)) w))
      = Some payload.

(** What holds of every state of a mounted hook: the intent is set; a socket
    that is not closed is the one in [wsRef], and the one in [wsRef] is
    not closed; a pending timeout is the one in
    [reconnectTimeoutRef] and waits while there is no socket; and without a
    socket a retry is pending. *)
Record connection_inv (w : world) : Prop := {
  inv_intent : shouldConnectRef w = true;
  inv_socket : ∀ s st, sockets w !! s = Some st → st ≠ CLOSED → wsRef w = Some s;
  inv_ref : ∀ s, wsRef w = Some s → ∃ st, sockets w !! s = Some st ∧ st ≠ CLOSED;
  inv_timer : ∀ id due, timers w !! id = Some due →
              reconnectTimeoutRef w = Some id ∧ wsRef w = None;
  inv_retry : wsRef w = None →
              ∃ id due, reconnectTimeoutRef w = Some id ∧ timers w !! id = Some due }.

(** What holds after the cleanup: the intent is cleared, no timeout is
    pending, and every socket is closing or closed. *)
Record torn_down (n : nat) (w : world) : Prop := {
  torn_intent : shouldConnectRef w = false;
  torn_timers : timers w = ∅;
  torn_count : length (sockets w) = n;
  torn_sockets : ∀ s st, sockets w !! s = Some st → st = CLOSING ∨ st = CLOSED }.

Section Retry.

Variable toLocaleTimeString : value → string.

(** The current connection is lost (with an error event or without), the
    fixed delay passes, the timeout fires, and the socket it constructs
    opens or stays connecting. *)
Definition retry_cycle (k : bool * bool) (w : world) : list event :=
  let '(abnormal, opens) := k in
  match wsRef w with
  | Some s =>
      loss abnormal s
      ++ [EvTick RECONNECT_DELAY; EvTimeout (next_timer w)]
      ++ (if opens then [EvOpen (length (sockets w))] else [])
  | None => []
  end.

(** One cycle per element of [kinds], each on the connection the previous
    one made. *)
Fixpoint retry_cycles (kinds : list (bool * bool)) (w : world) : option world :=
  match kinds with
  | [] => Some w
  | k :: rest =>
      run toLocaleTimeString (retry_cycle k w) w ≫= retry_cycles rest
  end.

End Retry.

(** ** The rest of [services/api.ts] and of [App] *)

Section ApiRest.

Variable server : nat → completion Response.

Variable wording : engine_error → string.


(** [api.healthCheck]: the response is not tested *)
Definition healthCheck : JS value :=
  response ← fetch server {| http_method := "GET"; http_path := "/api/health";
                             http_body := None |};
  eval (json response).

(** [api.getConfig] *)
Definition getConfig : JS value :=
  response ← fetch server {| http_method := "GET"; http_path := "/api/config";
                             http_body := None |};
  if negb (ok response) then throw (Err Error "Failed to fetch configuration")
  else eval (json response).


(** [App] next to the hook: the configuration it loads and the flag that
    hides the panels while it does. *)
Record page := Page {
  page_world : world;
  config : option value;
  isLoadingConfig : bool }.

(** [useState(null)] for the error and the configuration, [useState(true)]
    for [isLoadingConfig], [useState(false)] for [isStarting], around a
    fresh hook *)
Definition App_init : page :=
  {| page_world := useWebSocket_init; config := None; isLoadingConfig := true |}.

(** [fetchConfig], the body of the first effect of [App]: [try], [catch]
    and [finally] *)
Definition fetchConfig (a : page) : page :=
  match getConfig (page_world a) with
  | (Normal data, w) =>
      {| page_world := w; config := Some data; isLoadingConfig := false |}
  | (Throw err, w) =>
      {| page_world :=
           setError (Some "Failed to load configuration")
             (console_error [Text "Failed to fetch config:"; Exn err] w);
         config := config a;
         isLoadingConfig := false |}
  end.

End ApiRest.

(** The body of the effect of [App] that depends on [state]; React runs it
    after a render in which [state] has changed. *)
Definition isStarting_effect (w : world) : world :=
  if strict_eq_str (state w) "running" || strict_eq_str (state w) "idle"
     || strict_eq_str (state w) "stopped" || strict_eq_str (state w) "error"
  then setIsStarting false w
  else w.

(** [effectiveState] *)
Definition effectiveState (w : world) : value :=
  if isStarting w then VStr "running" else state w.

(** [isRunning] of [ConfigPanel], given [effectiveState]: the fields and the
    start button are disabled when it holds, the stop button when it does
    not. *)
Definition isRunning (w : world) : bool :=
  strict_eq_str (effectiveState w) "running".

(** ** [ConfigPanel] *)

Record ModelOption := { model_name : string; model_value : string }.

Record ProviderOption := { provider_name : string; provider_value : string }.

(** The numbers of the catalogue are taken to be naturals. *)
Record DepthOption := { depth_name : string; depth_value : N }.

(** [ApiConfig]. [shallow] and [deep] are objects used as maps from a
    provider to its models; a key they do not have has no models (a key
    inherited from [Object.prototype] has no element [0] either). *)
Record ApiConfig := {
  api_tickers : list (string * string);
  api_analysts : list string;
  api_depth : list DepthOption;
  api_provider : list ProviderOption;
  api_shallow : gmap string (list ModelOption);
  api_deep : gmap string (list ModelOption) }.

(** [depthMap]: the option values of the depth select *)
Definition depthMap (n : N) : option ResearchDepth :=
  match n with
  | 1 => Some quick
  | 3 => Some standard
  | 5 => Some deep
  | _ => None
  end%N.




(** The initial [formData]; [today] is the date of the first render. *)
Definition formData_init (today : string) : ConfigFormData :=
  {| ticker := "TSLA"; analysisDate := today;
     analysts := {| market := true; social := true; news := false;
                    fundamentals := false; momentum := false |};
     researchDepth := quick; llmProvider := "openai";
     shallowModel := "gpt-4o-mini"; deepModel := "gpt-4o-mini" |}.

(** The calls of [handleInputChange] in [ConfigPanel]: a field and its new
    value. *)
Inductive field_change :=
| change_ticker (v : string)
| change_analysisDate (v : string)
| change_researchDepth (v : ResearchDepth)
| change_llmProvider (v : string)
| change_shallowModel (v : string)
| change_deepModel (v : string).

(** [{ ...prev, [field]: value }] *)
Definition set_field (c : field_change) (prev : ConfigFormData) : ConfigFormData :=
  match c with
  | change_ticker v =>
      {| ticker := v; analysisDate := analysisDate prev; analysts := analysts prev;
         researchDepth := researchDepth prev; llmProvider := llmProvider prev;
         shallowModel := shallowModel prev; deepModel := deepModel prev |}
  | change_analysisDate v =>
      {| ticker := ticker prev; analysisDate := v; analysts := analysts prev;
         researchDepth := researchDepth prev; llmProvider := llmProvider prev;
         shallowModel := shallowModel prev; deepModel := deepModel prev |}
  | change_researchDepth v =>
      {| ticker := ticker prev; analysisDate := analysisDate prev;
         analysts := analysts prev; researchDepth := v;
         llmProvider := llmProvider prev;
         shallowModel := shallowModel prev; deepModel := deepModel prev |}
  | change_llmProvider v =>
      {| ticker := ticker prev; analysisDate := analysisDate prev;
         analysts := analysts prev; researchDepth := researchDepth prev;
         llmProvider := v;
         shallowModel := shallowModel prev; deepModel := deepModel prev |}
  | change_shallowModel v =>
      {| ticker := ticker prev; analysisDate := analysisDate prev;
         analysts := analysts prev; researchDepth := researchDepth prev;
         llmProvider := llmProvider prev;
         shallowModel := v; deepModel := deepModel prev |}
  | change_deepModel v =>
      {| ticker := ticker prev; analysisDate := analysisDate prev;
         analysts := analysts prev; researchDepth := researchDepth prev;
         llmProvider := llmProvider prev;
         shallowModel := shallowModel prev; deepModel := v |}
  end.

(** [models?.[0]] *)
Definition first_model (models : option (list ModelOption)) : option ModelOption :=
  models ≫= head.

(** the updater of [handleInputChange] *)
Definition handleInputChange
    (config : option ApiConfig) (c : field_change) (prev : ConfigFormData)
  : ConfigFormData :=
  let updated := set_field c prev in
  match c, config with
  | change_llmProvider newProvider, Some config =>
      let shallowModels := api_shallow config !! newProvider in
      let deepModels := api_deep config !! newProvider in
      let updated :=
        match first_model shallowModels with
        | Some m => set_field (change_shallowModel (model_value m)) updated
        | None => updated
        end in
      match first_model deepModels with
      | Some m => set_field (change_deepModel (model_value m)) updated
      | None => updated
      end
  | _, _ => updated
  end.


(** The effect of [ConfigPanel] that depends on [config]: the models are
    set when the configuration has loaded. *)
Definition initModels (config : option ApiConfig) (formData : ConfigFormData)
  : ConfigFormData :=
  match config with
  | Some config =>
      if negb (String.eqb (llmProvider formData) "") then
        let shallowModels := api_shallow config !! llmProvider formData in
        let deepModels := api_deep config !! llmProvider formData in
        match first_model shallowModels, first_model deepModels with
        | Some sm, Some dm =>
            set_field (change_deepModel (model_value dm))
              (set_field (change_shallowModel (model_value sm)) formData)
        | _, _ => formData
        end
      else formData
  | None => formData
  end.

(** The models of the form are among those the catalogue offers for the
    provider of the form. *)
Definition models_offered (config : ApiConfig) (formData : ConfigFormData) : Prop :=
  (∃ models m, api_shallow config !! llmProvider formData = Some models
               ∧ m ∈ models ∧ model_value m = shallowModel formData)
  ∧ (∃ models m, api_deep config !! llmProvider formData = Some models
                 ∧ m ∈ models ∧ model_value m = deepModel formData).

(** ** [OutputPanel] *)

From Stdlib Require Import Ascii.

(** A character of a string stands for the UTF-16 code unit of the same
    number: the strings of this part are those whose code units are below
    256. *)

(** White space and line terminators below 256: what [trim] removes and
    [\s] matches (tab, line feed, vertical tab, form feed, carriage return,
    space, no-break space). *)
Definition is_white (c : ascii) : bool :=
  match c with
  | "009" | "010" | "011" | "012" | "013" | " " | "160" => true
  | _ => false
  end%char.

Fixpoint trimStart (s : string) : string :=
  match s with
  | EmptyString => EmptyString
  | String c r => if is_white c then trimStart r else s
  end.

Fixpoint trimEnd (s : string) : string :=
  match s with
  | EmptyString => EmptyString
  | String c r =>
      match trimEnd r with
      | EmptyString => if is_white c then EmptyString else String c EmptyString
      | r' => String c r'
      end
  end.

(** [s.trim()] *)
Definition trim (s : string) : string := trimEnd (trimStart s).

(** every character of [s] satisfies [p] *)
Fixpoint all_chars (p : ascii → bool) (s : string) : bool :=
  match s with
  | EmptyString => true
  | String c r => p c && all_chars p r
  end.

(** [s.startsWith(x)] *)
Definition startsWith (x s : string) : bool := String.prefix x s.

(** [s.endsWith(x)] *)
Fixpoint endsWith (x s : string) : bool :=
  String.eqb x s
  || match s with
     | EmptyString => false
     | String _ r => endsWith x r
     end.

(** [s.includes(x)] *)
Fixpoint includes (x s : string) : bool :=
  String.prefix x s
  || match s with
     | EmptyString => false
     | String _ r => includes x r
     end.

(** [part.slice(2, -2)] *)
Definition slice_2_2 (part : string) : string :=
  String.substring 2 (String.length part - 4) part.

(** [/^[=]{4,}$/] *)
Definition is_divider (t : string) : bool :=
  all_chars (λ c, Ascii.eqb c "=") t && Nat.leb 4 (String.length t).

(** [/^[_\-]{4,}$/] *)
Definition is_rule (t : string) : bool :=
  all_chars (λ c, Ascii.eqb c "_" || Ascii.eqb c "-") t && Nat.leb 4 (String.length t).

(** [[A-Z]] *)
Definition is_upper (c : ascii) : bool :=
  Nat.leb 65 (nat_of_ascii c) && Nat.leb (nat_of_ascii c) 90.

(** [[A-Z\s:&,()-]] *)
Definition heading_char (c : ascii) : bool :=
  is_upper c || is_white c || Ascii.eqb c ":" || Ascii.eqb c "&"
  || Ascii.eqb c "," || Ascii.eqb c "(" || Ascii.eqb c ")" || Ascii.eqb c "-".

(** [/^[A-Z][A-Z\s:&,()-]{3,}$/] *)
Definition is_heading (t : string) : bool :=
  match t with
  | EmptyString => false
  | String c r => is_upper c && all_chars heading_char r && Nat.leb 3 (String.length r)
  end.

(** the longest prefix of [s] without a star, and the rest *)
Fixpoint span_no_star (s : string) : string * string :=
  match s with
  | EmptyString => (EmptyString, EmptyString)
  | String c r =>
      if Ascii.eqb c "*" then (EmptyString, s)
      else let '(run, rest) := span_no_star r in (String c run, rest)
  end.

(** A match of [/\*\*[^*]+\*\*/] at the start of [s]: the text matched and
    what follows it. The run of [[^*]+] is the longest one: a shorter one
    would be followed by a character that is not a star. *)
Definition match_bold (s : string) : option (string * string) :=
  match s with
  | String c1 (String c2 r) =>
      if Ascii.eqb c1 "*" && Ascii.eqb c2 "*" then
        match span_no_star r with
        | (String c run, String d1 (String d2 rest)) =>
            if Ascii.eqb d1 "*" && Ascii.eqb d2 "*"
            then Some ("**" +:+ String c run +:+ "**", rest)
            else None
        | _ => None
        end
      else None
  | _ => None
  end.

(** [text.split] by the pattern of [match_bold] in a capturing group: the
    loop of the split by a regular expression with one group. [pending] is the text since the end of the
    last match, [s] what is left to scan. A match closes the pending piece
    and is itself a piece; where there is none the scan moves on by one
    character. The fuel is the number of rounds left. *)
Fixpoint split_bold_loop (fuel : nat) (pending s : string) : list string :=
  match fuel with
  | 0 => []
  | S fuel =>
      match s with
      | EmptyString => [pending]
      | String c r =>
          match match_bold s with
          | Some (m, rest) => pending :: m :: split_bold_loop fuel EmptyString rest
          | None => split_bold_loop fuel (pending +:+ String c EmptyString) r
          end
      end
  end.

Definition split_bold (text : string) : list string :=
  split_bold_loop (S (String.length text)) EmptyString text.

(** The inline elements of a line; the [key] of an element is its position
    and is not kept. *)
Inductive inline :=
| strong (text : string)
| span (text : string).

(** [parseInline] *)
Definition parseInline (text : string) : list inline :=
  (λ part, if startsWith "**" part && endsWith "**" part
           then strong (slice_2_2 part)
           else span part) <$> split_bold text.

(** what [renderLine] makes of a line *)
Inductive block :=
| terminal_divider
| terminal_rule
| terminal_spacer
| terminal_heading (text : string)
| terminal_line (children : list inline).

(** [renderLine] *)
Definition renderLine (line : string) : block :=
  if is_divider (trim line) then terminal_divider
  else if is_rule (trim line) then terminal_rule
  else if String.eqb (trim line) "" then terminal_spacer
  else if is_heading (trim line) && negb (includes "**" line)
       then terminal_heading (trim line)
  else terminal_line (parseInline line).

(** the terminal of the panel *)
Inductive terminal :=
| terminal_placeholder (text : string)
| terminal_blocks (blocks : list block).

(** what [OutputPanel] shows: the terminal and the status bar *)
Record panel := {
  panel_terminal : terminal;
  status_class : string;
  status_text : string }.

(** [OutputPanel] *)
Definition OutputPanel (isConnected : bool) (messages : list string) : panel :=
  {| panel_terminal :=
       match messages with
       | [] =>
           terminal_placeholder
             (if isConnected then "Connected. Waiting for analysis to start..."
              else "Waiting to connect...")
       | _ => terminal_blocks (renderLine <$> messages)
       end;
     status_class := "status-bar " +:+ (if isConnected then "connected" else "disconnected");
     status_text := if isConnected then "Connected" else "Disconnected" |}.

(** the text a reader sees in a list of inline elements *)
Definition visible_text (children : list inline) : string :=
  foldr (λ i acc, match i with strong t | span t => t +:+ acc end) EmptyString children.

(** [s] without its stars *)
Fixpoint without_stars (s : string) : string :=
  match s with
  | EmptyString => EmptyString
  | String c r => if Ascii.eqb c "*" then without_stars r else String c (without_stars r)
  end.

(** ** The messages of [types/index.ts] and the banner of [App] *)

Definition is_string (v : value) : bool :=
  match v with VStr _ => true | _ => false end.

(** [AnalysisState] *)
Definition is_AnalysisState (v : value) : bool :=
  strict_eq_str v "idle" || strict_eq_str v "running"
  || strict_eq_str v "stopped" || strict_eq_str v "error".

(** [WebSocketMessage]: a [LogMessage], a [StatusMessage], a
    [ResultMessage] or a [PingMessage] *)
Definition WebSocketMessage (data : value) : bool :=
  match data with
  | VObj props =>
      let ty := own_property props "type" in
      if strict_eq_str ty "log" then
        is_string (own_property props "message") && is_string (own_property props "ts")
      else if strict_eq_str ty "status" then is_AnalysisState (own_property props "state")
      else if strict_eq_str ty "result" then has_own props "payload"
      else strict_eq_str ty "ping"
  | _ => false
  end.

(** A frame fails to parse as a well-formed message when [JSON.parse]
    rejects its text, or gives a value that is no [WebSocketMessage]. *)
Definition malformed (frame : completion value) : Prop :=
  match frame with
  | Normal data => WebSocketMessage data = false
  | Throw _ => True
  end.

(** [frame], arriving in state [w], is logged as an error and dropped: what
    the caller sees is as before, and so is every socket. *)
Definition logged_and_dropped
    (toLocaleTimeString : value → string) (frame : completion value) (w : world) : Prop :=
  let w' := onmessage toLocaleTimeString frame w in
  (∃ e, console w'
        = console w ++ [{| level := level_error;
                           args := [Text "Failed to parse WebSocket message:"; Exn e] |}])
  ∧ messages w' = messages w ∧ state w' = state w ∧ isConnected w' = isConnected w
  ∧ sockets w' = sockets w.

(** The frames on which the [try] block of [ws.onmessage] throws, with what
    it throws: the text is not JSON; the value is [null] (or [undefined]),
    of which [data.type] cannot be read; the message is of type ['log'] and
    [new Date(data.ts)] cannot convert its [ts]. *)
Inductive rejected : completion value → thrown → Prop :=
| rejected_text e : rejected (Throw e) e
| rejected_null : rejected (Normal VNull) (Raised (read_of_null "type"))
| rejected_undefined : rejected (Normal VUndefined) (Raised (read_of_undefined "type"))
| rejected_date data ts e :
    has_type data "log" → get_prop data "ts" = Normal ts → ToPrimitive ts = Throw e →
    rejected (Normal data) e.

(** Every message of type ['log'] appends an entry to the log. *)
Definition log_always_appended (toLocaleTimeString : value → string) : Prop :=
  ∀ data w, has_type data "log" →
    ∃ entry, messages (onmessage toLocaleTimeString (Normal data) w)
             = messages w ++ [entry].

(** The error banner of [App], rendered under [error &&]: it shows the
    error when there is one and it is not the empty string. *)
Definition error_banner (w : world) : option string :=
  match error w with
  | Some message => if String.eqb message "" then None else Some message
  | None => None
  end.

(** [request] of [handleStartAnalysis] *)
Definition start_request (config : ConfigFormData) : AnalysisRequest :=
  {| req_ticker := ticker config;
     req_analysis_date := analysisDate config;
     req_analysts := analysts config;
     req_research_depth := depthToValue (researchDepth config);
     req_llm_provider := llmProvider config;
     req_shallow_model := shallowModel config;
     req_deep_model := deepModel config |}.

(** Every start request that is answered with a response that is not ok
    is rejected with an [Error] whose message is the [detail] the server
    sent or one of the fallback texts, and the banner shows that message. *)
Definition start_rejection_displayed (wording : engine_error → string) : Prop :=
  ∀ answer config,
    ok answer = false →
    let server := λ _ : nat, Normal answer in
    ∃ message,
      (startAnalysis server (start_request config)
         (clearMessages (setIsStarting true (setError None useWebSocket_init)))).1
      = Throw (Err Error message)
      ∧ (message = "Unknown error" ∨ message = "Failed to start analysis"
         ∨ ∃ body detail, json answer = Normal body
                          ∧ get_prop body "detail" = Normal detail
                          ∧ ToString detail = Normal message)
      ∧ error_banner (handleStartAnalysis server wording config useWebSocket_init)
        = Some message.

(** a hook whose first socket has opened and has delivered one log line *)
Definition streaming_hook : world :=
  setMessages (λ prev, prev ++ ["[09:29:58] Fetching market data..."]) connected_hook.

(** * Properties *)

(** ** The model on concrete runs *)

(** The run of the spec: the socket opens, then [status running], two log
    lines, the result and [status stopped] arrive. The caller ends with the
    two lines and the state ['stopped']; the result went to the console. *)
Example scenario_TSLA :
  let fmt := λ ts, match ts with VStr s => s | _ => "Invalid Date" end in
  let evs :=
    [EvOpen 0;
     EvMessage 0 (Normal (VObj [("type", VStr "status"); ("state", VStr "running")]));
     EvMessage 0 (Normal (VObj [("type", VStr "log"); ("message", VStr "Fetching market data...");
                                ("ts", VStr "09:30:00")]));
     EvMessage 0 (Normal (VObj [("type", VStr "ping")]));
     EvMessage 0 (Normal (VObj [("type", VStr "log"); ("message", VStr "Fetching news...");
                                ("ts", VStr "09:30:02")]));
     EvMessage 0 (Normal (ResultMessage (VObj [("decision", VStr "BUY")])));
     EvMessage 0 (Normal (VObj [("type", VStr "status"); ("state", VStr "stopped")]))] in
  (λ w, (useWebSocket_result w, last (console w)))
    <$> run fmt evs (mount useWebSocket_init)
  = Some ({| res_isConnected := true;
             res_messages := ["[09:30:00] Fetching market data...";
                              "[09:30:02] Fetching news..."];
             res_state := VStr "stopped" |},
          Some {| level := level_log;
                  args := [Text "Received result:"; Val (VObj [("decision", VStr "BUY")])] |}).
Proof. vm_compute. reflexivity. Qed.

(** A connection that fails before it opens: error, close, and after three
    seconds a second socket; a timeout cannot fire after 2999 ms. *)
Example scenario_retry :
  (λ w, (sockets w, wsRef w, now w, isConnected w))
    <$> run (λ _, "") [EvError 0; EvClose 0; EvTick 3000; EvTimeout 1; EvOpen 1]
          (mount useWebSocket_init)
  = Some ([CLOSED; OPEN], Some 1, 3000%N, true)
  ∧ run (λ _, "") [EvError 0; EvClose 0; EvTick 2999; EvTimeout 1]
      (mount useWebSocket_init) = None.
Proof. split; vm_compute; reflexivity. Qed.

(** A frame on a socket that is not open, an open event on an open socket
    and a timeout that is not pending are events the browser cannot raise. *)
Example scenario_disabled :
  run (λ _, "") [EvMessage 0 (Normal (VObj [("type", VStr "ping")]))]
    (mount useWebSocket_init) = None
  ∧ run (λ _, "") [EvOpen 0; EvOpen 0] (mount useWebSocket_init) = None
  ∧ run (λ _, "") [EvTimeout 1] (mount useWebSocket_init) = None.
Proof. repeat split; vm_compute; reflexivity. Qed.

(** The start handler on five answers to the request: accepted; rejected
    with a detail; rejected with a body that is not JSON; rejected with a
    body without detail; and no answer at all. *)
Example scenario_start :
  let config := {| ticker := "TSLA"; analysisDate := "2026-01-05";
                   analysts := {| market := true; social := true; news := false;
                                  fundamentals := false; momentum := false |};
                   researchDepth := deep; llmProvider := "openai";
                   shallowModel := "small"; deepModel := "large" |} in
  let shown (answer : completion Response) :=
    let w := handleStartAnalysis (λ _, answer) v8_wording config useWebSocket_init in
    (error w, isStarting w, length (requests w)) in
  shown (Normal {| ok := true; json := Normal (VObj [("status", VStr "started")]) |})
  = (None, true, 1)
  ∧ shown (Normal {| ok := false;
                     json := Normal (VObj [("detail", VStr "Analysis already running")]) |})
    = (Some "Analysis already running", false, 1)
  ∧ shown (Normal {| ok := false; json := Throw (Err SyntaxError "Unexpected token") |})
    = (Some "Unknown error", false, 1)
  ∧ shown (Normal {| ok := false; json := Normal (VObj []) |})
    = (Some "Failed to start analysis", false, 1)
  ∧ shown (Throw (Err TypeError "Failed to fetch"))
    = (Some "Failed to fetch", false, 1).
Proof. repeat split; reflexivity. Qed.

(** Conversions of values: an array is joined with commas, [null] inside it
    is empty, an object is [[object Object]]; [0] and the empty string are
    falsy. *)
Example scenario_ToString :
  ToString (VArr [VNum "1"; VNull; VStr "a"; VArr [VBool true; VObj []]])
  = Normal "1,,a,true,[object Object]"
  ∧ ToString (VObj [("toString", VNull)]) = Throw (Raised not_primitive)
  ∧ ToString (VArr [VStr "a"; VObj [("toString", VNum "1")]]) = Throw (Raised not_primitive)
  ∧ ToPrimitive (VObj [("valueOf", VNull)]) = Normal (VStr "[object Object]")
  ∧ truthy (VNum "0") = false ∧ truthy (VStr "") = false
  ∧ truthy (VArr []) = true ∧ truthy (VStr "0") = true.
Proof. repeat split; reflexivity. Qed.

(** ** Messages *)

(** reduce the projections of the setters, and nothing else *)
Ltac fields :=
  cbn [isConnected messages state wsRef reconnectTimeoutRef shouldConnectRef
       error isStarting sockets timers next_timer now console requests
       setIsConnected setMessages setState set_wsRef set_reconnectTimeoutRef
       set_shouldConnectRef setError setIsStarting set_sockets set_timers
       set_now console_push requests_push console_log console_error
       set_readyState clearTimeout setTimeout clearMessages onerror fst snd] in *.

Ltac unfold_onmessage :=
  unfold onmessage, onmessage_render, onmessage_try, mbind, JS_bind,
    mret, JS_ret, eval, exec; simpl.

(** the case analysis of the handler: the frame, its type, and what each
    branch reads and converts *)
Ltac onmessage_cases :=
  repeat match goal with
         | |- context [match get_prop ?d ?k with _ => _ end] =>
             destruct (get_prop d k) eqn:?
         | |- context [if strict_eq_str ?t ?l then _ else _] =>
             destruct (strict_eq_str t l) eqn:?
         | |- context [match ToPrimitive ?t with _ => _ end] =>
             destruct (ToPrimitive t) eqn:?
         | |- context [match ToString ?t with _ => _ end] =>
             destruct (ToString t) eqn:?
         end.

Section MessageFacts.

Variable toLocaleTimeString : value → string.

Lemma onmessage_throw e w :
  onmessage toLocaleTimeString (Throw e) w
  = console_error [Text "Failed to parse WebSocket message:"; Exn e] w.
Proof. reflexivity. Qed.

Lemma onmessage_null w :
  onmessage toLocaleTimeString (Normal VNull) w
  = console_error
      [Text "Failed to parse WebSocket message:";
       Exn (Raised (read_of_null "type"))] w.
Proof. reflexivity. Qed.

Lemma has_type_object data t :
  has_type data t → ∃ props, data = VObj props ∧ own_property props "type" = VStr t.
Proof.
  unfold has_type. destruct data; simpl; intros H; try discriminate.
  eexists. split; [reflexivity|congruence].
Qed.

Lemma onmessage_ping data w :
  has_type data "ping" → onmessage toLocaleTimeString (Normal data) w = w.
Proof.
  intros (props & -> & Hty)%has_type_object.
  unfold_onmessage. rewrite Hty. reflexivity.
Qed.

Lemma onmessage_log props date text w :
  own_property props "type" = VStr "log" →
  ToPrimitive (own_property props "ts") = Normal date →
  ToString (own_property props "message") = Normal text →
  onmessage toLocaleTimeString (Normal (VObj props)) w
  = setMessages
      (λ prev, prev ++ ["[" +:+ toLocaleTimeString date +:+ "] " +:+ text]) w.
Proof.
  intros Hty Hts Hmsg. unfold_onmessage. rewrite Hty. simpl.
  rewrite Hts. simpl. rewrite Hmsg. reflexivity.
Qed.

(** [new Date(data.ts)] throws inside the block: the [catch] logs it. *)
Lemma onmessage_log_date props e w :
  own_property props "type" = VStr "log" →
  ToPrimitive (own_property props "ts") = Throw e →
  onmessage toLocaleTimeString (Normal (VObj props)) w
  = console_error [Text "Failed to parse WebSocket message:"; Exn e] w.
Proof.
  intros Hty Hts. unfold_onmessage. rewrite Hty. simpl. rewrite Hts. reflexivity.
Qed.

Lemma onmessage_status props w :
  own_property props "type" = VStr "status" →
  onmessage toLocaleTimeString (Normal (VObj props)) w
  = setState (own_property props "state") w.
Proof. intros Hty. unfold_onmessage. rewrite Hty. reflexivity. Qed.

Lemma onmessage_result props w :
  own_property props "type" = VStr "result" →
  onmessage toLocaleTimeString (Normal (VObj props)) w
  = console_log [Text "Received result:"; Val (own_property props "payload")] w.
Proof. intros Hty. unfold_onmessage. rewrite Hty. reflexivity. Qed.

(** The handler never reads the console: what the caller sees after a
    frame does not depend on what was logged before it. *)
Lemma onmessage_after_console_push frame c w :
  useWebSocket_result (onmessage toLocaleTimeString frame (console_push c w))
  = useWebSocket_result (onmessage toLocaleTimeString frame w).
Proof.
  destruct frame as [data|e]; [|reflexivity].
  unfold_onmessage. onmessage_cases; done.
Qed.

(** No frame touches a socket, a ref, a timer or the clock. *)
Lemma onmessage_connection frame w :
  let w' := onmessage toLocaleTimeString frame w in
  isConnected w' = isConnected w ∧ wsRef w' = wsRef w
  ∧ reconnectTimeoutRef w' = reconnectTimeoutRef w
  ∧ shouldConnectRef w' = shouldConnectRef w
  ∧ sockets w' = sockets w ∧ timers w' = timers w
  ∧ next_timer w' = next_timer w ∧ now w' = now w.
Proof.
  destruct frame as [data|e]; [|by repeat split].
  unfold_onmessage. onmessage_cases; done.
Qed.

(** A frame the page survives leaves the state [onmessage] gives. *)
Lemma dispatch_message s frame w w' :
  dispatch toLocaleTimeString (EvMessage s frame) w = Some w' →
  sockets w !! s = Some OPEN ∧ w' = onmessage toLocaleTimeString frame w.
Proof.
  simpl. case_bool_decide; [|done]. unfold onmessage.
  destruct (onmessage_render toLocaleTimeString frame w) as [[[]|e] w1]; [|done].
  by intros [= <-].
Qed.

End MessageFacts.

(** C2. A message of type ['ping'] changes nothing at all: the log
    accumulator, the current-state field and every other part of the state,
    the console included, are as before, so a ping is surfaced in no form. *)
Theorem ping_consumed_silently toLocaleTimeString (data : value) (w : world) :
  has_type data "ping" →
  let w' := onmessage toLocaleTimeString (Normal data) w in
  messages w' = messages w ∧ state w' = state w ∧ w' = w.
Proof.
  intros H. simpl. rewrite (onmessage_ping _ _ _ H). by repeat split.
Qed.

Lemma ping_consumed_silently_witness :
  has_type (VObj [("type", VStr "ping")]) "ping"
  ∧ onmessage (λ _, "12:00:00") (Normal (VObj [("type", VStr "ping")]))
      (setMessages (λ _, ["[11:59:59] started"]) useWebSocket_init)
    = setMessages (λ _, ["[11:59:59] started"]) useWebSocket_init.
Proof.
  split; [reflexivity|].
  apply (ping_consumed_silently (λ _, "12:00:00") (VObj [("type", VStr "ping")])).
  reflexivity.
Defined.

(** ** Frames the handler rejects *)

Section RejectedFacts.

Variable toLocaleTimeString : value → string.

(** The [try] block throws [e] exactly on the frames [rejected] lists. *)
Lemma rejected_iff_throws frame e w :
  rejected frame e ↔ (onmessage_try toLocaleTimeString frame w).1 = Throw e.
Proof.
  split.
  - intros [e'| | |data ts e' Hty Hts Hdate]; try reflexivity.
    apply has_type_object in Hty as (props & -> & Hty).
    simpl in Hts. injection Hts as <-.
    unfold_onmessage. rewrite Hty. simpl. by rewrite Hdate.
  - destruct frame as [data|e']; [|intros [= <-]; constructor].
    unfold_onmessage.
    destruct (get_prop data "type") as [ty|e'] eqn:Ety.
    + destruct (strict_eq_str ty "ping") eqn:Eping; [done|].
      destruct (strict_eq_str ty "log") eqn:Elog.
      * assert (has_type data "log") as Hty.
        { unfold has_type. rewrite Ety. f_equal.
          destruct ty; try discriminate. simpl in Elog.
          by apply String.eqb_eq in Elog as ->. }
        destruct (get_prop data "ts") as [ts|e'] eqn:Ets.
        -- destruct (ToPrimitive ts) as [date|e'] eqn:Edate.
           ++ destruct (get_prop data "message") eqn:Em; [done|].
              apply has_type_object in Hty as (props & -> & _). discriminate Em.
           ++ intros [= <-]. by eapply rejected_date.
        -- apply has_type_object in Hty as (props & -> & _). discriminate Ets.
      * destruct (strict_eq_str ty "status").
        -- destruct (get_prop data "state") eqn:Est; [done|].
           destruct data; try discriminate.
        -- destruct (strict_eq_str ty "result"); [|done].
           destruct (get_prop data "payload") eqn:Est; [done|].
           destruct data; try discriminate.
    + destruct data; try discriminate; injection Ety as <-; intros [= <-]; constructor.
Qed.

Lemma onmessage_rejected frame e w :
  rejected frame e →
  onmessage_render toLocaleTimeString frame w
  = (Normal tt, console_error [Text "Failed to parse WebSocket message:"; Exn e] w).
Proof.
  intros H. apply (rejected_iff_throws _ _ w) in H.
  unfold onmessage_render.
  destruct (onmessage_try toLocaleTimeString frame w) as [[queued|e'] w1] eqn:E;
    [done|].
  simpl in H. injection H as ->. f_equal. f_equal.
  destruct frame as [data|e0]; [|by injection E as _ <-].
  revert E. unfold_onmessage. onmessage_cases; by intros [= <-].
Qed.

(** Whether the render that follows a frame throws does not depend on what
    the console holds. *)
Lemma onmessage_render_after_console_push frame c w :
  (onmessage_render toLocaleTimeString frame (console_push c w)).1
  = (onmessage_render toLocaleTimeString frame w).1.
Proof.
  destruct frame as [data|e]; [|reflexivity].
  unfold_onmessage. onmessage_cases; done.
Qed.

End RejectedFacts.

(** C3, as the code has it. A frame on which the [try] block throws (its
    text is not JSON, it is the value [null], or it is a message of type
    ['log'] whose [ts] cannot be converted by [new Date]) is logged to the
    console with the error and dropped: [messages], [state] and
    [isConnected] are unchanged, no socket changes its [readyState] (the
    connection is not closed), no ref and no timer changes, the page goes
    on, and the frame that follows is handled as if this one had not
    arrived. No other frame is logged as an error. *)
Theorem malformed_frame_discarded
    toLocaleTimeString (frame : completion value) (e : thrown) (w : world) :
  rejected frame e →
  let w' := onmessage toLocaleTimeString frame w in
  console w' = console w
               ++ [{| level := level_error;
                      args := [Text "Failed to parse WebSocket message:"; Exn e] |}]
  ∧ messages w' = messages w ∧ state w' = state w ∧ isConnected w' = isConnected w
  ∧ sockets w' = sockets w ∧ wsRef w' = wsRef w
  ∧ shouldConnectRef w' = shouldConnectRef w
  ∧ reconnectTimeoutRef w' = reconnectTimeoutRef w ∧ timers w' = timers w
  ∧ (∀ s, sockets w !! s = Some OPEN →
          dispatch toLocaleTimeString (EvMessage s frame) w = Some w')
  ∧ (∀ next, useWebSocket_result (onmessage toLocaleTimeString next w')
             = useWebSocket_result (onmessage toLocaleTimeString next w))
  ∧ (∀ s next, dispatch toLocaleTimeString (EvMessage s next) w = None
               ↔ dispatch toLocaleTimeString (EvMessage s next) w' = None)
  ∧ (∀ other e',
        console (onmessage toLocaleTimeString other w)
        = console w ++ [{| level := level_error;
                           args := [Text "Failed to parse WebSocket message:"; Exn e'] |}] →
        rejected other e').
Proof.
  intros Hrej.
  assert (onmessage toLocaleTimeString frame w
          = console_error [Text "Failed to parse WebSocket message:"; Exn e] w) as Hw.
  { unfold onmessage. by rewrite (onmessage_rejected _ _ _ w Hrej). }
  cbn zeta. rewrite !Hw.
  split; [reflexivity|]. do 8 (split; [reflexivity|]).
  split; [|split; [|split]].
  - intros s Hs. cbn [dispatch]. rewrite bool_decide_eq_true_2 by done.
    by rewrite (onmessage_rejected _ _ _ w Hrej).
  - intros next. apply onmessage_after_console_push.
  - intros s next. cbn [dispatch]. unfold console_error. fields.
    pose proof (onmessage_render_after_console_push toLocaleTimeString next
                  {| level := level_error;
                     args := [Text "Failed to parse WebSocket message:"; Exn e] |} w)
      as Hsame.
    destruct (onmessage_render toLocaleTimeString next (console_push _ w))
      as [[[]|e1] w1];
      destruct (onmessage_render toLocaleTimeString next w) as [[[]|e2] w2];
      simpl in Hsame; try discriminate; by case_bool_decide.
  - intros other e' Hlog. apply (rejected_iff_throws toLocaleTimeString _ _ w).
    revert Hlog. unfold onmessage, onmessage_render.
    destruct (onmessage_try toLocaleTimeString other w) as [[queued|e1] w1] eqn:E.
    + intros Hlog. exfalso. revert E Hlog.
      destruct other as [data|e0]; [|done].
      unfold_onmessage. onmessage_cases; intros [= <- <-]; fields;
        intros Hlog;
        try (apply (f_equal length) in Hlog; rewrite length_app in Hlog;
             simpl in Hlog; lia);
        try (apply app_inj_tail in Hlog as [_ Hlog]; discriminate).
    + assert (w1 = w) as ->.
      { revert E. destruct other as [data|e0]; [|by intros [= _ <-]].
        unfold_onmessage. onmessage_cases; by intros [= <-]. }
      fields. intros Hlog. apply app_inj_tail in Hlog as [_ Hlog].
      by injection Hlog as <-.
Qed.

Lemma malformed_frame_discarded_witness :
  let frame := Normal (VObj [("type", VStr "log"); ("message", VStr "Fetching news...");
                             ("ts", VObj [("toString", VNull)])]) in
  rejected frame (Raised not_primitive)
  ∧ messages (onmessage (λ _, "09:30:00") frame streaming_hook)
    = ["[09:29:58] Fetching market data..."]
  ∧ last (console (onmessage (λ _, "09:30:00") frame streaming_hook))
    = Some {| level := level_error;
              args := [Text "Failed to parse WebSocket message:";
                       Exn (Raised not_primitive)] |}
  ∧ dispatch (λ _, "09:30:00") (EvMessage 0 frame) streaming_hook
    = Some (onmessage (λ _, "09:30:00") frame streaming_hook).
Proof.
  intros frame.
  assert (rejected frame (Raised not_primitive)) as Hrej.
  { by eapply rejected_date. }
  split; [exact Hrej|].
  destruct (malformed_frame_discarded (λ _, "09:30:00") frame (Raised not_primitive)
              streaming_hook Hrej)
    as (Hconsole & Hmessages & _ & _ & _ & _ & _ & _ & _ & Hgoes & _).
  split; [exact Hmessages|]. split.
  - rewrite Hconsole. apply last_snoc.
  - apply Hgoes. reflexivity.
Defined.

(** C3, as the spec has it, fails. A status message without [state] is no
    well-formed message, yet it is not logged and it sets [state] to
    [undefined]; a number is dropped without a word on the console. *)
Lemma malformed_frame_not_detected :
  let fmt := λ _ : value, "09:30:00" in
  let no_state := Normal (VObj [("type", VStr "status")]) in
  malformed no_state ∧ malformed (Normal (VNum "42"))
  ∧ state streaming_hook = VStr "idle"
  ∧ state (onmessage fmt no_state streaming_hook) = VUndefined
  ∧ console (onmessage fmt no_state streaming_hook) = console streaming_hook
  ∧ onmessage fmt (Normal (VNum "42")) streaming_hook = streaming_hook
  ∧ ¬ (∀ frame w, malformed frame → logged_and_dropped fmt frame w).
Proof.
  intros fmt no_state. do 6 (split; [reflexivity|]).
  intros H. destruct (H no_state streaming_hook eq_refl) as (_ & _ & Hstate & _).
  discriminate Hstate.
Qed.

(** C6, as the code has it. A message of type ['log'] whose [ts] converts
    to the primitive [date] and whose [message] converts to the string
    [text] appends one entry, made of the formatted [date] and of [text], at
    the end of [messages] and keeps every earlier entry in place; it leaves
    [state] alone, and the page goes on. Strings, which is what a
    [LogMessage] holds, always convert, to themselves. A message of type
    ['status'] sets [state] to the message's [state] and leaves [messages]
    alone. *)
Theorem log_appended_status_stored
    toLocaleTimeString (lg st ts message date : value) (text : string) (w : world) :
  has_type lg "log" →
  get_prop lg "ts" = Normal ts → ToPrimitive ts = Normal date →
  get_prop lg "message" = Normal message → ToString message = Normal text →
  has_type st "status" →
  (let w' := onmessage toLocaleTimeString (Normal lg) w in
   messages w' = messages w
                 ++ ["[" +:+ toLocaleTimeString date +:+ "] " +:+ text]
   ∧ length (messages w') = S (length (messages w))
   ∧ (∀ i entry, messages w !! i = Some entry → messages w' !! i = Some entry)
   ∧ state w' = state w ∧ isConnected w' = isConnected w
   ∧ (∀ s, sockets w !! s = Some OPEN →
           dispatch toLocaleTimeString (EvMessage s (Normal lg)) w = Some w'))
  ∧ (∀ s, ToPrimitive (VStr s) = Normal (VStr s) ∧ ToString (VStr s) = Normal s)
  ∧ (∃ new_state,
      get_prop st "state" = Normal new_state
      ∧ let w' := onmessage toLocaleTimeString (Normal st) w in
        state w' = new_state ∧ messages w' = messages w
        ∧ isConnected w' = isConnected w).
Proof.
  intros (pl & -> & Hl)%has_type_object Hts Hdate Hmsg Htext
         (ps & -> & Hs)%has_type_object.
  simpl in Hts, Hmsg. injection Hts as <-. injection Hmsg as <-.
  split; [|split; [done|]].
  - rewrite (onmessage_log _ _ _ _ _ Hl Hdate Htext). simpl.
    repeat split; try reflexivity.
    + rewrite length_app. simpl. lia.
    + intros i entry Hi. by apply lookup_app_l_Some.
    + intros s Hopen. rewrite bool_decide_eq_true_2 by done.
      unfold_onmessage. rewrite Hl. simpl. rewrite Hdate. simpl.
      by rewrite Htext.
  - exists (own_property ps "state").
    rewrite (onmessage_status _ _ _ Hs). by repeat split.
Qed.

Lemma log_appended_status_stored_witness :
  let lg := VObj [("type", VStr "log"); ("message", VStr "Fetching news...");
                  ("ts", VStr "2026-01-05T09:30:00Z")] in
  let st := VObj [("type", VStr "status"); ("state", VStr "running")] in
  has_type lg "log"
  ∧ get_prop lg "ts" = Normal (VStr "2026-01-05T09:30:00Z")
  ∧ ToPrimitive (VStr "2026-01-05T09:30:00Z") = Normal (VStr "2026-01-05T09:30:00Z")
  ∧ get_prop lg "message" = Normal (VStr "Fetching news...")
  ∧ ToString (VStr "Fetching news...") = Normal "Fetching news..."
  ∧ has_type st "status"
  ∧ messages (onmessage (λ _, "09:30:00") (Normal lg) streaming_hook)
    = ["[09:29:58] Fetching market data..."; "[09:30:00] Fetching news..."]
  ∧ state (onmessage (λ _, "09:30:00") (Normal st) streaming_hook) = VStr "running".
Proof.
  intros lg st.
  destruct
    (log_appended_status_stored (λ _, "09:30:00") lg st
       (VStr "2026-01-05T09:30:00Z") (VStr "Fetching news...")
       (VStr "2026-01-05T09:30:00Z") "Fetching news..." streaming_hook
       eq_refl eq_refl eq_refl eq_refl eq_refl eq_refl)
    as [(Hlog & _) (_ & new_state & Hst & Hstate & _)].
  split; [reflexivity|]. split; [reflexivity|]. split; [reflexivity|].
  split; [reflexivity|]. split; [reflexivity|]. split; [reflexivity|]. split.
  - rewrite Hlog. reflexivity.
  - rewrite Hstate. injection Hst as <-. reflexivity.
Defined.

(** C6, as the spec has it, fails: a message of type ['log'] whose [ts] is
    an object with a [toString] property of its own appends nothing, for
    [new Date(data.ts)] throws and the handler logs the error instead. *)
Lemma log_not_always_appended :
  let fmt := λ _ : value, "09:30:00" in
  let lg := VObj [("type", VStr "log"); ("message", VStr "Fetching news...");
                  ("ts", VObj [("toString", VNull)])] in
  has_type lg "log"
  ∧ messages (onmessage fmt (Normal lg) streaming_hook) = messages streaming_hook
  ∧ ¬ log_always_appended fmt.
Proof.
  intros fmt lg. split; [reflexivity|]. split; [reflexivity|].
  intros H. destruct (H lg streaming_hook eq_refl) as [entry Hentry].
  apply (f_equal length) in Hentry. discriminate Hentry.
Qed.

(** C1, as the code has it. A message of type ['result'] writes its payload
    to the browser console, once, and does nothing else: no entry is appended
    to [messages], and what the hook returns to its caller is what it
    returned before the message. *)
Theorem result_logged_to_console toLocaleTimeString (data : value) (w : world) :
  has_type data "result" →
  ∃ payload,
    get_prop data "payload" = Normal payload
    ∧ let w' := onmessage toLocaleTimeString (Normal data) w in
      w' = console_log [Text "Received result:"; Val payload] w
      ∧ console w' = console w
                     ++ [{| level := level_log; args := [Text "Received result:"; Val payload] |}]
      ∧ messages w' = messages w
      ∧ useWebSocket_result w' = useWebSocket_result w.
Proof.
  intros (props & -> & Hty)%has_type_object.
  exists (own_property props "payload").
  rewrite (onmessage_result _ _ _ Hty). by repeat split.
Qed.

Lemma result_logged_to_console_witness :
  has_type (ResultMessage (VObj [("decision", VStr "BUY")])) "result"
  ∧ ∃ payload,
      get_prop (ResultMessage (VObj [("decision", VStr "BUY")])) "payload" = Normal payload
      ∧ let w' := onmessage (λ _, "09:30:00")
                    (Normal (ResultMessage (VObj [("decision", VStr "BUY")])))
                    useWebSocket_init in
        w' = console_log [Text "Received result:"; Val payload] useWebSocket_init
        ∧ console w' = console useWebSocket_init
                       ++ [{| level := level_log; args := [Text "Received result:"; Val payload] |}]
        ∧ messages w' = messages useWebSocket_init
        ∧ useWebSocket_result w' = useWebSocket_result useWebSocket_init.
Proof.
  split; [reflexivity|].
  apply (result_logged_to_console (λ _, "09:30:00")
           (ResultMessage (VObj [("decision", VStr "BUY")])) useWebSocket_init).
  reflexivity.
Defined.

(** C1, as the spec has it, fails: after a result message the caller cannot
    read the payload off what the hook returns. The payloads [1] and [2]
    leave the hook returning the same record. *)
Lemma result_not_surfaced :
  ¬ result_surfaced (λ _, "09:30:00") connected_hook.
Proof.
  intros [handle H].
  pose proof (H (VNum "1")) as H1.
  pose proof (H (VNum "2")) as H2.
  change (useWebSocket_result
            (onmessage (λ _, "09:30:00") (Normal (ResultMessage (VNum "2")))
               connected_hook))
    with (useWebSocket_result
            (onmessage (λ _, "09:30:00") (Normal (ResultMessage (VNum "1")))
               connected_hook)) in H2.
  rewrite H1 in H2. discriminate H2.
Qed.

(** C9. A fresh hook returns: not connected, no log entry, state ['idle'];
    and so it does after its mount effect has run, until an event arrives. *)
Theorem initial_result :
  useWebSocket_result useWebSocket_init
  = {| res_isConnected := false; res_messages := []; res_state := VStr "idle" |}
  ∧ useWebSocket_result (mount useWebSocket_init)
    = {| res_isConnected := false; res_messages := []; res_state := VStr "idle" |}.
Proof. split; reflexivity. Qed.

(** C10. [clearMessages] empties [messages] and changes nothing else: not
    [isConnected], not [state], not the intent, not the socket in [wsRef] or
    the [readyState] of any socket, not a timer, nor the rest of the state. *)
Theorem clearMessages_only_clears (w : world) :
  let w' := clearMessages w in
  messages w' = []
  ∧ isConnected w' = isConnected w ∧ state w' = state w
  ∧ shouldConnectRef w' = shouldConnectRef w
  ∧ wsRef w' = wsRef w ∧ sockets w' = sockets w
  ∧ reconnectTimeoutRef w' = reconnectTimeoutRef w
  ∧ timers w' = timers w ∧ next_timer w' = next_timer w ∧ now w' = now w
  ∧ error w' = error w ∧ isStarting w' = isStarting w
  ∧ console w' = console w ∧ requests w' = requests w.
Proof. by repeat split. Qed.

(** ** The connection *)

Section ConnectionFacts.

Variable toLocaleTimeString : value → string.

Lemma connect_noop w :
  shouldConnectRef w = false ∨ wsRef_readyState w = Some OPEN → connect w = w.
Proof.
  unfold connect. intros [-> | ->].
  - by rewrite orb_true_r.
  - by rewrite bool_decide_eq_true_2.
Qed.

Lemma connect_constructs w :
  shouldConnectRef w = true → wsRef_readyState w ≠ Some OPEN →
  connect w
  = set_wsRef (Some (length (sockets w)))
      (set_sockets (sockets w ++ [CONNECTING])
         (console_log [Text "Connecting to WebSocket..."] w)).
Proof.
  unfold connect. intros -> H. by rewrite bool_decide_eq_false_2.
Qed.

Lemma onclose_intent w :
  shouldConnectRef w = true →
  onclose w
  = set_reconnectTimeoutRef (Some (next_timer w))
      (set_timers (<[next_timer w := (now w + RECONNECT_DELAY)%N]> (timers w))
         (Pos.succ (next_timer w))
         (console_log [Text "Reconnecting in 3000ms..."]
            (set_wsRef None
               (setIsConnected false
                  (console_log [Text "WebSocket disconnected"] w))))).
Proof. unfold onclose. fields. intros ->. reflexivity. Qed.

Lemma onclose_no_intent w :
  shouldConnectRef w = false →
  onclose w
  = set_wsRef None
      (setIsConnected false (console_log [Text "WebSocket disconnected"] w)).
Proof. unfold onclose. fields. intros ->. reflexivity. Qed.

(** The invariant looks at the intent, the sockets, the two refs and the
    timers only. *)
Lemma connection_inv_ext w w' :
  shouldConnectRef w' = shouldConnectRef w → sockets w' = sockets w →
  wsRef w' = wsRef w → reconnectTimeoutRef w' = reconnectTimeoutRef w →
  timers w' = timers w →
  connection_inv w → connection_inv w'.
Proof.
  intros Hi Hs Hr Ht Hm [I1 I2 I3 I4 I5].
  split; rewrite ?Hi, ?Hs, ?Hr, ?Ht, ?Hm; assumption.
Qed.

Lemma inv_no_timer w s :
  connection_inv w → wsRef w = Some s → timers w = ∅.
Proof.
  intros I Hs. apply map_empty. intros id.
  destruct (timers w !! id) as [due|] eqn:E; [|done].
  destruct (inv_timer _ I _ _ E) as [_ Hn]. congruence.
Qed.

Lemma inv_mount : connection_inv (mount useWebSocket_init).
Proof.
  split.
  - reflexivity.
  - intros [|s] st; [reflexivity|]. simpl. intros H. by destruct s.
  - intros s [= <-]. by exists CONNECTING.
  - intros id due. vm_compute. discriminate.
  - discriminate.
Qed.

Lemma inv_onopen w s :
  connection_inv w → sockets w !! s = Some CONNECTING →
  connection_inv (onopen (set_readyState s OPEN w)).
Proof.
  intros I Hs.
  assert (wsRef w = Some s) as Hr by (by eapply inv_socket).
  assert (timers w = ∅) as Ht by (by eapply inv_no_timer).
  assert (timers (onopen (set_readyState s OPEN w)) = ∅) as Ht'.
  { unfold onopen. fields. destruct (reconnectTimeoutRef w); fields.
    - rewrite Ht. apply delete_empty.
    - done. }
  assert (wsRef (onopen (set_readyState s OPEN w)) = Some s) as Hr'.
  { unfold onopen. fields. by destruct (reconnectTimeoutRef w). }
  assert (sockets (onopen (set_readyState s OPEN w)) = <[s := OPEN]> (sockets w)) as Hs'.
  { unfold onopen. fields. by destruct (reconnectTimeoutRef w). }
  split.
  - unfold onopen. fields. destruct (reconnectTimeoutRef w); fields; apply I.
  - rewrite Hs', Hr'. intros s' st' [(-> & _)|(Hne & Hl)]%list_lookup_insert_Some Hc.
    + done.
    + rewrite <- Hr. by eapply inv_socket.
  - rewrite Hs', Hr'. intros s' [= <-]. exists OPEN. split; [|done].
    apply list_lookup_insert_eq. by eapply lookup_lt_Some.
  - rewrite Ht'. intros id due. by rewrite lookup_empty.
  - rewrite Hr'. discriminate.
Qed.

Lemma inv_onclose w s st :
  connection_inv w → sockets w !! s = Some st → st ≠ CLOSED →
  connection_inv (onclose (set_readyState s CLOSED w)).
Proof.
  intros I Hs Hst.
  assert (wsRef w = Some s) as Hr by (by eapply inv_socket).
  assert (timers w = ∅) as Ht by (by eapply inv_no_timer).
  rewrite onclose_intent by (fields; apply I).
  split; fields.
  - apply I.
  - intros s' st' [(-> & <- & _)|(Hne & Hl)]%list_lookup_insert_Some Hc; [done|].
    pose proof (inv_socket _ I _ _ Hl Hc). congruence.
  - discriminate.
  - rewrite Ht. intros id due [(<- & _)|(_ & H)]%lookup_insert_Some; [done|].
    by rewrite lookup_empty in H.
  - intros _. eexists _, _. split; [reflexivity|]. apply lookup_insert_eq.
Qed.

Lemma inv_onclosing w s :
  connection_inv w → sockets w !! s = Some OPEN →
  connection_inv (set_readyState s CLOSING w).
Proof.
  intros I Hs.
  assert (wsRef w = Some s) as Hr by (by eapply inv_socket).
  split; fields; try apply I.
  - intros s' st' [(-> & _)|(Hne & Hl)]%list_lookup_insert_Some Hc; [done|].
    by eapply inv_socket.
  - rewrite Hr. intros s' [= <-]. exists CLOSING. split; [|done].
    apply list_lookup_insert_eq. by eapply lookup_lt_Some.
Qed.

Lemma inv_timeout w id due :
  connection_inv w → timers w !! id = Some due →
  connection_inv (connect (clearTimeout id w)).
Proof.
  intros I Hid.
  destruct (inv_timer _ I _ _ Hid) as [Hr Hn].
  rewrite connect_constructs.
  2: { fields. apply I. }
  2: { unfold wsRef_readyState. fields. by rewrite Hn. }
  split; fields.
  - apply I.
  - intros s' st' [Hl|(Hge & Hl)]%lookup_app_Some Hc.
    + pose proof (inv_socket _ I _ _ Hl Hc). congruence.
    + f_equal. destruct (s' - length (sockets w)) as [|k] eqn:E; [lia|].
      by destruct k.
  - intros s' [= <-]. exists CONNECTING. split; [|done].
    rewrite lookup_app_r by lia. by rewrite Nat.sub_diag.
  - intros id' due' (Hne & Hl)%lookup_delete_Some.
    destruct (inv_timer _ I _ _ Hl) as [Hr' _]. congruence.
  - discriminate.
Qed.

Lemma inv_dispatch e w w' :
  connection_inv w → e ≠ EvUnmount →
  dispatch toLocaleTimeString e w = Some w' → connection_inv w'.
Proof.
  intros I Hne. destruct e as [s|s frame|s|s|s|id|ms| |];
    [| |simpl..].
  - simpl. case_bool_decide; [|done]. intros [= <-]. by apply inv_onopen.
  - intros [_ ->]%dispatch_message.
    destruct (onmessage_connection toLocaleTimeString frame w)
      as (_ & ? & ? & ? & ? & ? & _).
    by apply (connection_inv_ext w).
  - destruct (sockets w !! s); [|done]. case_bool_decide; [done|].
    intros [= <-]. by apply (connection_inv_ext w).
  - case_bool_decide as Hs; [|done]. intros [= <-]. by eapply inv_onclosing.
  - destruct (sockets w !! s) as [st|] eqn:E; [|done]. case_bool_decide; [done|].
    intros [= <-]. by eapply inv_onclose.
  - destruct (timers w !! id) as [due|] eqn:E; [|done]. case_bool_decide; [|done].
    intros [= <-]. by eapply inv_timeout.
  - intros [= <-]. by apply (connection_inv_ext w).
  - intros [= <-]. by apply (connection_inv_ext w).
  - done.
Qed.

Lemma mounted_inv w : mounted toLocaleTimeString w → connection_inv w.
Proof.
  induction 1 as [|e w w' _ IH Hne Hd]; [apply inv_mount|].
  by eapply inv_dispatch.
Qed.

End ConnectionFacts.

(** The sample hook is a mounted one: its socket has opened and one log
    message has arrived. *)
Lemma streaming_hook_mounted : mounted (λ _, "09:29:58") streaming_hook.
Proof.
  apply (mounted_step _
           (EvMessage 0 (Normal (VObj [("type", VStr "log");
                                       ("message", VStr "Fetching market data...");
                                       ("ts", VStr "2026-01-05T09:29:58Z")])))
           connected_hook); [|discriminate|reflexivity].
  apply (mounted_step _ (EvOpen 0) (mount useWebSocket_init));
    [apply mounted_mount|discriminate|reflexivity].
Qed.

Section ReconnectFacts.

(** the time format of the browser *)
Variable fmt : value → string.

Lemma run_app evs1 evs2 w :
  run fmt (evs1 ++ evs2) w = run fmt evs1 w ≫= run fmt evs2.
Proof.
  revert w. induction evs1 as [|e evs1 IH]; intros w; [done|].
  simpl. destruct (dispatch fmt e w); simpl; [apply IH|done].
Qed.

Lemma run_one e w : run fmt [e] w = dispatch fmt e w.
Proof. simpl. by destruct (dispatch fmt e w). Qed.

Lemma mounted_run evs w w' :
  mounted fmt w → Forall (λ e, e ≠ EvUnmount) evs →
  run fmt evs w = Some w' → mounted fmt w'.
Proof.
  intros Hm Hn. revert w Hm.
  induction Hn as [|e evs He _ IH]; intros w Hm; simpl.
  - by intros [= <-].
  - destruct (dispatch fmt e w) as [w1|] eqn:E; simpl; [|done].
    apply IH. by eapply mounted_step.
Qed.

Lemma mounted_live w s :
  mounted fmt w → wsRef w = Some s →
  ∃ st, sockets w !! s = Some st ∧ st ≠ CLOSED.
Proof.
  intros I%mounted_inv Hs.
  exact (inv_ref _ I _ Hs).
Qed.

(** A loss of the current connection while mounted: the flag drops, the
    ref is emptied, and one timeout, due after [RECONNECT_DELAY], is all
    that is pending. *)
Lemma loss_effect w s k :
  mounted fmt w → wsRef w = Some s →
  ∃ w1, run fmt (loss k s) w = Some w1 ∧ mounted fmt w1
    ∧ isConnected w1 = false ∧ wsRef w1 = None
    ∧ timers w1 = {[ next_timer w := (now w + RECONNECT_DELAY)%N ]}
    ∧ reconnectTimeoutRef w1 = Some (next_timer w)
    ∧ next_timer w1 = Pos.succ (next_timer w)
    ∧ sockets w1 = <[s := CLOSED]> (sockets w)
    ∧ messages w1 = messages w ∧ state w1 = state w ∧ now w1 = now w.
Proof.
  intros Hm Hs.
  destruct (mounted_live _ _ Hm Hs) as (st & Hl & Hst).
  pose proof (mounted_inv _ _ Hm) as I.
  assert (timers w = ∅) as Ht by (by eapply inv_no_timer).
  assert (run fmt (loss k s) w
          = Some (onclose (set_readyState s CLOSED (if k then onerror w else w)))) as Hrun.
  { unfold loss. destruct k; simpl.
    - rewrite Hl. rewrite bool_decide_eq_false_2 by done. simpl. fields.
      rewrite Hl. by rewrite bool_decide_eq_false_2.
    - rewrite Hl. by rewrite bool_decide_eq_false_2. }
  eexists. split; [exact Hrun|]. split.
  { eapply mounted_run; [exact Hm| |exact Hrun].
    unfold loss. destruct k; by repeat constructor. }
  rewrite onclose_intent by (destruct k; fields; apply I).
  destruct k; fields; rewrite Ht, insert_empty; by repeat split.
Qed.

(** A pending timeout fires once it is due, and the retry constructs a
    socket; before it is due it cannot fire. *)
Lemma retry_effect w t due d :
  mounted fmt w → timers w !! t = Some due → (due ≤ now w + d)%N →
  ∃ w2, run fmt [EvTick d; EvTimeout t] w = Some w2 ∧ mounted fmt w2
    ∧ wsRef w2 = Some (length (sockets w))
    ∧ sockets w2 = sockets w ++ [CONNECTING]
    ∧ timers w2 = delete t (timers w)
    ∧ isConnected w2 = isConnected w
    ∧ messages w2 = messages w ∧ state w2 = state w
    ∧ now w2 = (now w + d)%N ∧ next_timer w2 = next_timer w.
Proof.
  intros Hm Ht Hd.
  pose proof (mounted_inv _ _ Hm) as I.
  destruct (inv_timer _ I _ _ Ht) as [_ Hn].
  assert (run fmt [EvTick d; EvTimeout t] w
          = Some (connect (clearTimeout t (set_now (now w + d) w)))) as Hrun.
  { simpl. fields. rewrite Ht. by rewrite bool_decide_eq_true_2. }
  eexists. split; [exact Hrun|]. split.
  { eapply mounted_run; [exact Hm| |exact Hrun]. by repeat constructor. }
  rewrite connect_constructs.
  - by repeat split.
  - fields. apply I.
  - unfold wsRef_readyState. fields. by rewrite Hn.
Qed.

Lemma retry_too_early w t due d :
  timers w !! t = Some due → (now w + d < due)%N →
  run fmt [EvTick d; EvTimeout t] w = None.
Proof.
  intros Ht Hd. simpl. fields. rewrite Ht.
  rewrite bool_decide_eq_false_2; [done|lia].
Qed.

(** a connecting socket opens *)
Lemma open_effect w s :
  sockets w !! s = Some CONNECTING →
  ∃ w', dispatch fmt (EvOpen s) w = Some w'
    ∧ isConnected w' = true ∧ messages w' = messages w ∧ state w' = state w
    ∧ wsRef w' = wsRef w ∧ sockets w' = <[s := OPEN]> (sockets w).
Proof.
  intros Hs. simpl. rewrite bool_decide_eq_true_2 by done.
  eexists. split; [reflexivity|].
  unfold onopen. fields. destruct (reconnectTimeoutRef w); by repeat split.
Qed.

(** one cycle of [retry_cycles] *)
Lemma retry_cycle_effect w s k :
  mounted fmt w → wsRef w = Some s →
  ∃ w', run fmt (retry_cycle k w) w = Some w' ∧ mounted fmt w'
    ∧ wsRef w' = Some (length (sockets w))
    ∧ length (sockets w') = S (length (sockets w))
    ∧ now w' = (now w + RECONNECT_DELAY)%N
    ∧ messages w' = messages w.
Proof.
  intros Hm Hs. destruct k as [abnormal opens].
  unfold retry_cycle. rewrite Hs, run_app.
  destruct (loss_effect w s abnormal Hm Hs)
    as (w1 & -> & Hm1 & _ & _ & Ht1 & _ & Hn1 & Hs1 & Hmsg1 & _ & Hnow1).
  cbn [mbind option_bind]. rewrite run_app.
  destruct (retry_effect w1 (next_timer w) (now w + RECONNECT_DELAY)%N
              RECONNECT_DELAY Hm1) as (w2 & -> & Hm2 & Hr2 & Hs2 & _ & _ & Hmsg2 & _ & Hnow2 & _).
  { rewrite Ht1. apply lookup_singleton_eq. }
  { rewrite Hnow1. lia. }
  cbn [mbind option_bind].
  rewrite Hs1, length_insert in Hr2.
  assert (length (sockets w2) = S (length (sockets w))) as Hl2.
  { rewrite Hs2, length_app, Hs1, length_insert. simpl. lia. }
  destruct opens.
  - destruct (open_effect w2 (length (sockets w)))
      as (w3 & Hrun3 & _ & Hmsg3 & _ & Hr3 & Hs3).
    { rewrite Hs2, Hs1, lookup_app_r by (by rewrite length_insert).
      by rewrite length_insert, Nat.sub_diag. }
    exists w3. rewrite run_one. split; [exact Hrun3|]. split.
    { eapply mounted_step; [exact Hm2| |exact Hrun3]. done. }
    split; [congruence|]. split; [by rewrite Hs3, length_insert|].
    split; [|congruence].
    simpl in Hrun3. rewrite bool_decide_eq_true_2 in Hrun3.
    + injection Hrun3 as <-. unfold onopen. fields.
      destruct (reconnectTimeoutRef w2); fields; lia.
    + rewrite Hs2, Hs1, lookup_app_r by (by rewrite length_insert).
      by rewrite length_insert, Nat.sub_diag.
  - exists w2. split; [reflexivity|]. split; [exact Hm2|]. split; [exact Hr2|].
    split; [exact Hl2|]. split; [lia|congruence].
Qed.

Lemma retry_cycles_effect kinds : ∀ w s,
  mounted fmt w → wsRef w = Some s →
  ∃ w', retry_cycles fmt kinds w = Some w' ∧ mounted fmt w'
    ∧ length (sockets w') = length (sockets w) + length kinds
    ∧ now w' = (now w + RECONNECT_DELAY * N.of_nat (length kinds))%N
    ∧ (∃ s', wsRef w' = Some s')
    ∧ messages w' = messages w.
Proof.
  induction kinds as [|k kinds IH]; intros w s Hm Hs.
  - exists w. simpl. repeat split; eauto; lia.
  - destruct (retry_cycle_effect w s k Hm Hs)
      as (w1 & Hrun & Hm1 & Hr1 & Hl1 & Hn1 & Hmsg1).
    destruct (IH w1 _ Hm1 Hr1) as (w' & Hrun' & Hm' & Hl' & Hn' & Hr' & Hmsg').
    exists w'. simpl. rewrite Hrun. simpl.
    repeat split; [exact Hrun'|exact Hm'| | |exact Hr'|congruence].
    + rewrite Hl', Hl1. lia.
    + rewrite Hn', Hn1. lia.
Qed.

End ReconnectFacts.

Section TeardownFacts.

Variable fmt : value → string.

Lemma cleanup_intent w : shouldConnectRef (cleanup w) = false.
Proof.
  unfold cleanup, WebSocket_close. fields.
  destruct (reconnectTimeoutRef w); fields;
    (destruct (wsRef w) as [s|] eqn:E; fields;
     [destruct (sockets w !! s) as [[]|] eqn:E'; fields|]; done).
Qed.

Lemma cleanup_wsRef w : wsRef (cleanup w) = None.
Proof.
  unfold cleanup. fields.
  destruct (reconnectTimeoutRef w); fields;
    destruct (wsRef w) as [s|] eqn:E; fields; done.
Qed.

Lemma cleanup_timers w :
  timers (cleanup w)
  = match reconnectTimeoutRef w with
    | Some id => delete id (timers w)
    | None => timers w
    end.
Proof.
  unfold cleanup, WebSocket_close. fields.
  destruct (reconnectTimeoutRef w); fields;
    (destruct (wsRef w) as [s|] eqn:E; fields;
     [destruct (sockets w !! s) as [[]|] eqn:E'; fields|]; done).
Qed.

Lemma cleanup_sockets w :
  sockets (cleanup w)
  = match wsRef w with
    | Some s => sockets (WebSocket_close s w)
    | None => sockets w
    end.
Proof.
  unfold cleanup, WebSocket_close. fields.
  destruct (reconnectTimeoutRef w); fields;
    (destruct (wsRef w) as [s|] eqn:E; fields;
     [destruct (sockets w !! s) as [[]|] eqn:E'; fields|]; done).
Qed.

Lemma cleanup_torn w :
  connection_inv w → torn_down (length (sockets w)) (cleanup w).
Proof.
  intros I. split.
  - apply cleanup_intent.
  - rewrite cleanup_timers. apply map_empty. intros i.
    destruct (reconnectTimeoutRef w) as [id|] eqn:Er.
    + apply lookup_delete_None. destruct (decide (id = i)) as [|Hne]; [by left|right].
      destruct (timers w !! i) as [due|] eqn:E; [|done].
      destruct (inv_timer _ I _ _ E) as [Hr _]. congruence.
    + destruct (timers w !! i) as [due|] eqn:E; [|done].
      destruct (inv_timer _ I _ _ E) as [Hr _]. congruence.
  - rewrite cleanup_sockets. unfold WebSocket_close.
    destruct (wsRef w) as [s|]; [|done].
    destruct (sockets w !! s) as [[]|]; fields; by rewrite ?length_insert.
  - rewrite cleanup_sockets. intros s' st'.
    destruct (wsRef w) as [s|] eqn:Er.
    + destruct (inv_ref _ I _ Er) as (st & Hs & Hst). unfold WebSocket_close.
      rewrite Hs.
      assert (∀ l, l !! s' = Some st' →
                   (l = sockets w ∧ st = CLOSING) ∨ l = <[s := CLOSING]> (sockets w) →
                   st' = CLOSING ∨ st' = CLOSED) as Hcases.
      { intros l Hl [[-> ->] | ->].
        - destruct (decide (st' = CLOSED)) as [|Hc]; [by right|left].
          pose proof (inv_socket _ I _ _ Hl Hc) as Hr.
          rewrite Er in Hr. injection Hr as ->. congruence.
        - apply list_lookup_insert_Some in Hl as [(_ & <- & _)|(Hne & Hl)]; [by left|].
          right. destruct (decide (st' = CLOSED)) as [|Hc]; [done|].
          pose proof (inv_socket _ I _ _ Hl Hc). congruence. }
      destruct st; fields; intros Hl; try done;
        (eapply Hcases; [exact Hl|]); auto.
    + intros Hl. right. destruct (decide (st' = CLOSED)) as [|Hc]; [done|].
      pose proof (inv_socket _ I _ _ Hl Hc). congruence.
Qed.

Lemma cleanup_closes w s :
  connection_inv w → wsRef w = Some s → sockets (cleanup w) !! s = Some CLOSING.
Proof.
  intros I Hs. rewrite cleanup_sockets, Hs. unfold WebSocket_close.
  destruct (inv_ref _ I _ Hs) as (st & Hl & Hst). rewrite Hl.
  destruct st; fields; try done;
    apply list_lookup_insert_eq; by eapply lookup_lt_Some.
Qed.

Lemma torn_dispatch n e w w' :
  torn_down n w → dispatch fmt e w = Some w' → torn_down n w'.
Proof.
  intros [Ti Tt Tc Ts]. destruct e as [s|s frame|s|s|s|id|ms| |];
    [| |simpl..].
  - simpl. case_bool_decide as H; [|done]. by destruct (Ts _ _ H).
  - intros [H _]%dispatch_message. by destruct (Ts _ _ H).
  - destruct (sockets w !! s); [|done]. case_bool_decide; [done|].
    by intros [= <-].
  - case_bool_decide as H; [|done]. by destruct (Ts _ _ H).
  - destruct (sockets w !! s) as [st|] eqn:E; [|done]. case_bool_decide; [done|].
    intros [= <-]. rewrite onclose_no_intent by done. split; fields; try done.
    + by rewrite length_insert.
    + intros s' st' [(_ & <- & _)|(_ & Hl)]%list_lookup_insert_Some; [by right|].
      by eapply Ts.
  - by rewrite Tt, lookup_empty.
  - by intros [= <-].
  - by intros [= <-].
  - intros [= <-]. split.
    + apply cleanup_intent.
    + rewrite cleanup_timers, Tt. destruct (reconnectTimeoutRef w); [|done].
      apply delete_empty.
    + rewrite cleanup_sockets. unfold WebSocket_close.
      destruct (wsRef w) as [s|]; [|done].
      destruct (sockets w !! s) as [[]|]; fields; by rewrite ?length_insert.
    + rewrite cleanup_sockets. unfold WebSocket_close.
      destruct (wsRef w) as [s|]; [|done].
      destruct (sockets w !! s) as [st|] eqn:E; [|done].
      destruct (Ts _ _ E) as [-> | ->]; done.
Qed.

Lemma torn_run n evs : ∀ w w',
  torn_down n w → run fmt evs w = Some w' → torn_down n w'.
Proof.
  induction evs as [|e evs IH]; intros w w' T; simpl.
  - by intros [= <-].
  - destruct (dispatch fmt e w) as [w1|] eqn:E; simpl; [|done].
    apply IH. by eapply torn_dispatch.
Qed.

Lemma cleanup_messages w : messages (cleanup w) = messages w.
Proof.
  unfold cleanup, WebSocket_close. fields.
  destruct (reconnectTimeoutRef w); fields;
    (destruct (wsRef w) as [s|] eqn:E; fields;
     [destruct (sockets w !! s) as [[]|] eqn:E'; fields|]; done).
Qed.

(** A frame appends to [messages] or leaves it alone. *)
Lemma onmessage_prefix frame w :
  messages w `prefix_of` messages (onmessage fmt frame w).
Proof.
  destruct frame as [data|e]; [|done].
  unfold_onmessage. onmessage_cases; fields; try done; by apply prefix_app_r.
Qed.

Lemma handlers_keep_messages v :
  messages (onclose v) = messages v ∧ messages (onopen v) = messages v
  ∧ messages (onerror v) = messages v ∧ messages (connect v) = messages v
  ∧ state (onclose v) = state v ∧ state (onopen v) = state v.
Proof.
  unfold onclose, onopen, connect. fields.
  destruct (shouldConnectRef v), (reconnectTimeoutRef v),
    (bool_decide (wsRef_readyState v = Some OPEN)); by repeat split.
Qed.

(** Only [clearMessages] ever removes an entry. *)
Lemma dispatch_prefix e w w' :
  e ≠ EvClearMessages → dispatch fmt e w = Some w' →
  messages w `prefix_of` messages w'.
Proof.
  intros Hne. destruct e as [s|s frame|s|s|s|id|ms| |]; [| |simpl..].
  - simpl. case_bool_decide; [|done]. intros [= <-].
    destruct (handlers_keep_messages (set_readyState s OPEN w)) as (_ & -> & _). done.
  - intros [_ ->]%dispatch_message. apply onmessage_prefix.
  - destruct (sockets w !! s); [|done]. case_bool_decide; [done|]. by intros [= <-].
  - case_bool_decide; [|done]. by intros [= <-].
  - destruct (sockets w !! s); [|done]. case_bool_decide; [done|]. intros [= <-].
    destruct (handlers_keep_messages (set_readyState s CLOSED w)) as (-> & _). done.
  - destruct (timers w !! id); [|done]. case_bool_decide; [|done]. intros [= <-].
    destruct (handlers_keep_messages (clearTimeout id w)) as (_ & _ & _ & -> & _). done.
  - by intros [= <-].
  - done.
  - intros [= <-]. by rewrite cleanup_messages.
Qed.

Lemma run_prefix evs : ∀ w w',
  Forall (λ e, e ≠ EvClearMessages) evs → run fmt evs w = Some w' →
  messages w `prefix_of` messages w'.
Proof.
  induction evs as [|e evs IH]; intros w w' Hn; simpl.
  - by intros [= <-].
  - destruct (dispatch fmt e w) as [w1|] eqn:E; simpl; [|done].
    intros Hrun. inversion Hn as [|? ? He Hn']; subst.
    etrans; [by eapply dispatch_prefix|by eapply IH].
Qed.

End TeardownFacts.

(** C4. [RECONNECT_DELAY] is 3000 ms. Whenever a socket closes while the
    intent is set, one timeout is scheduled, due exactly [RECONNECT_DELAY]
    after the close, whatever happened before (the delay is not a function of
    the state: no backoff); with the intent cleared, none is scheduled. For a
    mounted hook with a current connection [s], lost with or without an
    error: the timeout is the only pending one, it cannot fire before the
    delay has passed, and when it fires a new socket is constructed. And the
    cycle can be repeated any number of times: [length kinds] losses in a
    row, each with an error event or without, each on a socket that had
    opened or not, give [length kinds] new sockets, [RECONNECT_DELAY] after
    one another, and leave the hook mounted with a current connection. *)
Theorem reconnect_after_fixed_delay
    (fmt : value → string) (w : world) (s : nat) (kinds : list (bool * bool)) :
  mounted fmt w → wsRef w = Some s →
  RECONNECT_DELAY = 3000%N
  ∧ (∀ v, shouldConnectRef v = true →
          timers (onclose v)
          = <[next_timer v := (now v + RECONNECT_DELAY)%N]> (timers v)
          ∧ reconnectTimeoutRef (onclose v) = Some (next_timer v))
  ∧ (∀ v, shouldConnectRef v = false →
          timers (onclose v) = timers v
          ∧ reconnectTimeoutRef (onclose v) = reconnectTimeoutRef v)
  ∧ (∀ abnormal, ∃ w1,
        run fmt (loss abnormal s) w = Some w1
        ∧ timers w1 = {[ next_timer w := (now w + RECONNECT_DELAY)%N ]}
        ∧ length (sockets w1) = length (sockets w)
        ∧ (∀ d, (d < RECONNECT_DELAY)%N →
                run fmt [EvTick d; EvTimeout (next_timer w)] w1 = None)
        ∧ ∃ w2, run fmt [EvTick RECONNECT_DELAY; EvTimeout (next_timer w)] w1 = Some w2
                ∧ sockets w2 = sockets w1 ++ [CONNECTING]
                ∧ wsRef w2 = Some (length (sockets w))
                ∧ timers w2 = ∅)
  ∧ ∃ w', retry_cycles fmt kinds w = Some w'
          ∧ mounted fmt w'
          ∧ length (sockets w') = length (sockets w) + length kinds
          ∧ now w' = (now w + RECONNECT_DELAY * N.of_nat (length kinds))%N
          ∧ ∃ s', wsRef w' = Some s'.
Proof.
  intros Hm Hs. split; [reflexivity|]. split; [|split; [|split]].
  - intros v Hv. by rewrite onclose_intent.
  - intros v Hv. by rewrite onclose_no_intent.
  - intros k.
    destruct (loss_effect fmt w s k Hm Hs)
      as (w1 & Hrun & Hm1 & _ & _ & Ht1 & _ & _ & Hs1 & _ & _ & Hnow1).
    assert (timers w1 !! next_timer w = Some (now w + RECONNECT_DELAY)%N) as Hl.
    { rewrite Ht1. apply lookup_singleton_eq. }
    exists w1. split; [exact Hrun|]. split; [exact Ht1|].
    split; [by rewrite Hs1, length_insert|]. split.
    + intros d Hd. eapply retry_too_early; [exact Hl|]. rewrite Hnow1. lia.
    + destruct (retry_effect fmt w1 _ _ RECONNECT_DELAY Hm1 Hl)
        as (w2 & Hrun2 & _ & Hr2 & Hs2 & Ht2 & _); [rewrite Hnow1; lia|].
      exists w2. split; [exact Hrun2|]. split; [exact Hs2|]. split.
      * by rewrite Hr2, Hs1, length_insert.
      * rewrite Ht2, Ht1. apply delete_singleton_eq.
  - destruct (retry_cycles_effect fmt kinds w s Hm Hs)
      as (w' & Hrun & Hm' & Hl & Hn & Hr & _).
    by exists w'.
Qed.

Lemma reconnect_after_fixed_delay_witness :
  mounted (λ _, "09:30:00") (mount useWebSocket_init)
  ∧ wsRef (mount useWebSocket_init) = Some 0
  ∧ ∃ w', retry_cycles (λ _, "09:30:00") [(true, false); (false, true); (true, true)]
            (mount useWebSocket_init)
          = Some w'
          ∧ length (sockets w') = 4 ∧ now w' = 9000%N.
Proof.
  split; [apply mounted_mount|]. split; [reflexivity|].
  destruct (reconnect_after_fixed_delay (λ _, "09:30:00") (mount useWebSocket_init)
              0 [(true, false); (false, true); (true, true)] (mounted_mount _) eq_refl)
    as (_ & _ & _ & _ & w' & Hrun & _ & Hlen & Hnow & _).
  exists w'. split; [exact Hrun|]. split; [exact Hlen|exact Hnow].
Defined.

(** C5. Neither the close handler nor the open handler (nor the error
    handler, nor [connect]) touches [messages], and whatever events arrive,
    as long as the caller does not call [clearMessages], the entries
    accumulated so far stay where they are. For a mounted hook with a
    current connection [s]: when the connection is lost, [isConnected] drops
    to false; when the retry then fires (at the delay or later) and the new
    socket opens, [isConnected] is true again and [messages] is what it was
    before the loss. The hook is the same one throughout: it is not mounted
    anew. *)
Theorem reconnection_restores_flag_keeps_log
    (fmt : value → string) (w : world) (s : nat) (abnormal : bool) (late : N) :
  mounted fmt w → wsRef w = Some s →
  (∀ v, messages (onclose v) = messages v ∧ messages (onopen v) = messages v
        ∧ messages (onerror v) = messages v ∧ messages (connect v) = messages v)
  ∧ (∀ evs w', Forall (λ e, e ≠ EvClearMessages) evs → run fmt evs w = Some w' →
               messages w `prefix_of` messages w')
  ∧ ∃ w1 w2,
      run fmt (loss abnormal s) w = Some w1
      ∧ isConnected w1 = false ∧ messages w1 = messages w
      ∧ run fmt [EvTick (RECONNECT_DELAY + late); EvTimeout (next_timer w);
                 EvOpen (length (sockets w))] w1 = Some w2
      ∧ isConnected w2 = true ∧ messages w2 = messages w ∧ state w2 = state w
      ∧ mounted fmt w2.
Proof.
  intros Hm Hs. split.
  { intros v. destruct (handlers_keep_messages v) as (? & ? & ? & ? & _). done. }
  split.
  { intros evs w' Hn Hrun. by eapply run_prefix. }
  destruct (loss_effect fmt w s abnormal Hm Hs)
    as (w1 & Hrun & Hm1 & Hc1 & _ & Ht1 & _ & _ & Hs1 & Hmsg1 & Hst1 & Hnow1).
  destruct (retry_effect fmt w1 (next_timer w) (now w + RECONNECT_DELAY)%N
              (RECONNECT_DELAY + late)%N Hm1)
    as (w2 & Hrun2 & Hm2 & _ & Hs2 & _ & _ & Hmsg2 & Hst2 & _).
  { rewrite Ht1. apply lookup_singleton_eq. }
  { rewrite Hnow1. lia. }
  destruct (open_effect fmt w2 (length (sockets w)))
    as (w3 & Hrun3 & Hc3 & Hmsg3 & Hst3 & _).
  { rewrite Hs2, Hs1, lookup_app_r by (by rewrite length_insert).
    by rewrite length_insert, Nat.sub_diag. }
  exists w1, w3. split; [exact Hrun|]. split; [exact Hc1|]. split; [exact Hmsg1|].
  split.
  { change (run fmt ([EvTick (RECONNECT_DELAY + late); EvTimeout (next_timer w)]
                     ++ [EvOpen (length (sockets w))]) w1 = Some w3).
    rewrite run_app, Hrun2. cbn [mbind option_bind]. by rewrite run_one. }
  split; [exact Hc3|]. split; [congruence|]. split; [congruence|].
  eapply mounted_step; [exact Hm2| |exact Hrun3]. done.
Qed.

Lemma reconnection_restores_flag_keeps_log_witness :
  mounted (λ _, "09:29:58") streaming_hook
  ∧ wsRef streaming_hook = Some 0
  ∧ isConnected streaming_hook = true
  ∧ messages streaming_hook = ["[09:29:58] Fetching market data..."]
  ∧ ∃ w1 w2,
      run (λ _, "09:29:58") (loss true 0) streaming_hook = Some w1
      ∧ isConnected w1 = false
      ∧ messages w1 = ["[09:29:58] Fetching market data..."]
      ∧ run (λ _, "09:29:58") [EvTick (RECONNECT_DELAY + 250); EvTimeout 1; EvOpen 1] w1
        = Some w2
      ∧ isConnected w2 = true
      ∧ messages w2 = ["[09:29:58] Fetching market data..."].
Proof.
  split; [apply streaming_hook_mounted|]. split; [reflexivity|].
  split; [reflexivity|]. split; [reflexivity|].
  destruct (reconnection_restores_flag_keeps_log (λ _, "09:29:58")
              streaming_hook 0 true 250 streaming_hook_mounted eq_refl)
    as (_ & _ & w1 & w2 & Hrun & Hc1 & Hmsg1 & Hrun2 & Hc2 & Hmsg & _).
  exists w1, w2. split; [exact Hrun|]. split; [exact Hc1|]. split; [exact Hmsg1|].
  split; [exact Hrun2|]. split; [exact Hc2|exact Hmsg].
Defined.

(** C7. The intent is true in a fresh hook and in every state of a mounted
    hook, and the cleanup sets it to false. The cleanup of a mounted hook
    leaves no timeout pending, calls [close()] on the current socket and
    empties [wsRef], so that every socket is closing or closed. [connect]
    does nothing when the intent is false or the socket in [wsRef] is open.
    And whatever events follow the cleanup, no socket is ever constructed
    again, no timeout is ever pending, and the intent stays false. *)
Theorem teardown_stops_reconnecting (fmt : value → string) (w : world) :
  mounted fmt w →
  shouldConnectRef useWebSocket_init = true
  ∧ shouldConnectRef w = true
  ∧ shouldConnectRef (cleanup w) = false
  ∧ timers (cleanup w) = ∅
  ∧ wsRef (cleanup w) = None
  ∧ (∀ s, wsRef w = Some s → sockets (cleanup w) !! s = Some CLOSING)
  ∧ (∀ s st, sockets (cleanup w) !! s = Some st → st = CLOSING ∨ st = CLOSED)
  ∧ (∀ v, shouldConnectRef v = false ∨ wsRef_readyState v = Some OPEN →
          connect v = v)
  ∧ (∀ evs w', run fmt evs (cleanup w) = Some w' →
               shouldConnectRef w' = false
               ∧ length (sockets w') = length (sockets w)
               ∧ timers w' = ∅
               ∧ ∀ s st, sockets w' !! s = Some st → st = CLOSING ∨ st = CLOSED).
Proof.
  intros Hm. pose proof (mounted_inv _ _ Hm) as I.
  pose proof (cleanup_torn w I) as T.
  split; [reflexivity|]. split; [apply I|]. split; [apply T|].
  split; [apply T|]. split; [apply cleanup_wsRef|].
  split; [intros s; by apply cleanup_closes|]. split; [apply T|].
  split; [apply connect_noop|].
  intros evs w' Hrun. destruct (torn_run fmt _ evs _ _ T Hrun). done.
Qed.

Lemma teardown_stops_reconnecting_witness :
  let fmt := λ _ : value, "09:29:58" in
  let waiting := onclose (set_readyState 0 CLOSED streaming_hook) in
  (mounted fmt streaming_hook
   ∧ sockets streaming_hook = [OPEN]
   ∧ shouldConnectRef (cleanup streaming_hook) = false
   ∧ sockets (cleanup streaming_hook) = [CLOSING]
   ∧ ∀ evs w', run fmt evs (cleanup streaming_hook) = Some w' →
               length (sockets w') = 1 ∧ timers w' = ∅)
  ∧ (mounted fmt waiting
     ∧ timers waiting = {[ 1%positive := 3000%N ]}
     ∧ shouldConnectRef (cleanup waiting) = false
     ∧ timers (cleanup waiting) = ∅
     ∧ run fmt [EvTick 3000; EvTimeout 1] waiting ≠ None
     ∧ run fmt [EvUnmount; EvTick 3000; EvTimeout 1] waiting = None
     ∧ ∀ evs w', run fmt evs (cleanup waiting) = Some w' →
                 length (sockets w') = 1 ∧ timers w' = ∅).
Proof.
  intros fmt waiting.
  assert (mounted fmt waiting) as Hwaiting.
  { apply (mounted_step _ (EvClose 0) streaming_hook);
      [apply streaming_hook_mounted|discriminate|reflexivity]. }
  split.
  - destruct (teardown_stops_reconnecting fmt streaming_hook streaming_hook_mounted)
      as (_ & _ & Hi & _ & _ & Hc & _ & _ & Hafter).
    split; [apply streaming_hook_mounted|]. split; [reflexivity|].
    split; [exact Hi|]. split.
    + specialize (Hc 0 eq_refl).
      destruct (sockets (cleanup streaming_hook)) as [|st [|st' rest]] eqn:E;
        try discriminate E.
      injection Hc as ->. reflexivity.
    + intros evs w' Hrun. destruct (Hafter evs w' Hrun) as (_ & Hlen & Ht & _).
      split; [exact Hlen|exact Ht].
  - destruct (teardown_stops_reconnecting fmt waiting Hwaiting)
      as (_ & _ & Hi & Ht & _ & _ & _ & _ & Hafter).
    split; [exact Hwaiting|]. split; [reflexivity|]. split; [exact Hi|].
    split; [exact Ht|]. split; [discriminate|]. split; [reflexivity|].
    intros evs w' Hrun. destruct (Hafter evs w' Hrun) as (_ & Hlen & Ht' & _).
    split; [exact Hlen|exact Ht'].
Defined.

(** ** The start request *)

Ltac unfold_js :=
  unfold run_block, try_catch, mbind, JS_bind, mret, JS_ret, eval, exec, throw.

Section StartFacts.

Variable server : nat → completion Response.

Lemma get_prop_throws_Error v key e :
  get_prop v key = Throw e → instanceof_Error e = true.
Proof. destruct v; simpl; intros [= <-]; reflexivity. Qed.

(** induction on a value, through the items of an array *)
Lemma value_items_ind (P : value → Prop) :
  P VUndefined → P VNull → (∀ b, P (VBool b)) → (∀ r, P (VNum r)) →
  (∀ s, P (VStr s)) → (∀ items, Forall P items → P (VArr items)) →
  (∀ props, P (VObj props)) → ∀ v, P v.
Proof.
  intros Hu Hn Hb Hr Hs Ha Ho.
  fix IH 1.
  intros [| |b|r|s|items|props];
    [exact Hu|exact Hn|apply Hb|apply Hr|apply Hs| |apply Ho].
  apply Ha. revert items. fix IHl 1.
  intros [|x rest]; constructor; [apply IH|apply IHl].
Qed.

(** The conversion to a string throws one thing only. *)
Lemma ToString_throws v e : ToString v = Throw e → e = Raised not_primitive.
Proof.
  revert e. induction v as [| |[]| | |items IHitems|props] using value_items_ind;
    intros e; simpl; try discriminate.
  - induction IHitems as [|x rest Hx _ IHrest]; [discriminate|].
    destruct (match x with VUndefined | VNull => Normal "" | _ => ToString x end)
      as [sx|ex] eqn:Ex.
    + destruct rest as [|y rest]; [discriminate|].
      destruct ((fix join (l : list value) : completion string :=
                   match l with
                   | [] => Normal ""
                   | x :: rest =>
                       match match x with
                             | VUndefined | VNull => Normal ""
                             | _ => ToString x
                             end
                       with
                       | Throw e => Throw e
                       | Normal sx =>
                           match rest with
                           | [] => Normal sx
                           | _ :: _ =>
                               match join rest with
                               | Normal sr => Normal (sx +:+ "," +:+ sr)
                               | Throw e => Throw e
                               end
                           end
                       end
                   end) (y :: rest)) as [sr|er] eqn:Er; [discriminate|].
      intros [= <-]. by apply IHrest.
    + intros [= <-]. destruct x; try discriminate Ex; by apply Hx.
  - destruct (has_own props "toString"); [|discriminate]. by intros [= <-].
Qed.

(** A response that is not ok makes [startAnalysis] reject, after one
    request and one line on the console. *)
Lemma startAnalysis_not_ok request v r :
  server (length (requests v)) = Normal r → ok r = false →
  ∃ e,
    startAnalysis server request v
    = (Throw e,
       requests_push {| http_method := "POST"; http_path := "/api/start";
                        http_body := Some request |}
         (console_log [Req request] v))
    ∧ instanceof_Error e = true
    ∧ (∀ x, json r = Throw x → e = Err Error "Unknown error")
    ∧ (∀ body detail,
          json r = Normal body → get_prop body "detail" = Normal detail →
          if truthy detail then
            match ToString detail with
            | Normal text => e = Err Error text
            | Throw _ => e = Raised not_primitive
            end
          else e = Err Error "Failed to start analysis")
    ∧ (json r = Normal VNull → e = Raised (read_of_null "detail")).
Proof.
  intros Hsrv Hok. unfold startAnalysis, fetch. unfold_js. fields.
  rewrite Hsrv, Hok. cbn [negb].
  destruct (json r) as [body|x] eqn:Ej.
  - destruct (get_prop body "detail") as [detail|te] eqn:Ed.
    + destruct (truthy detail) eqn:Et.
      * destruct (ToString detail) as [text|raised] eqn:Es.
        -- eexists. split; [reflexivity|]. split; [reflexivity|].
           split; [done|]. split.
           ++ intros body' detail' [= <-]. rewrite Ed. intros [= <-].
              by rewrite Et, Es.
           ++ intros [= ->]. discriminate Ed.
        -- eexists. split; [reflexivity|].
           rewrite (ToString_throws _ _ Es).
           split; [reflexivity|]. split; [done|]. split.
           ++ intros body' detail' [= <-]. rewrite Ed. intros [= <-].
              by rewrite Et, Es.
           ++ intros [= ->]. discriminate Ed.
      * eexists. split; [reflexivity|]. split; [reflexivity|].
        split; [done|]. split.
        -- intros body' detail' [= <-]. rewrite Ed. intros [= <-]. by rewrite Et.
        -- intros [= ->]. discriminate Ed.
    + eexists. split; [reflexivity|].
      split; [by eapply get_prop_throws_Error|]. split; [done|]. split.
      * intros body' detail' [= <-]. by rewrite Ed.
      * intros [= ->]. by injection Ed as <-.
  - eexists. split; [reflexivity|]. split; [reflexivity|].
    split; [done|]. split; done.
Qed.

End StartFacts.

(** C8, as the code has it. When the response to the start request is not
    ok, [startAnalysis] rejects: with an [Error] whose message is the
    [detail] of the response body converted to a string when there is a
    truthy one, ['Failed to start analysis'] when the body has none and
    ['Unknown error'] when the body is not JSON; but with a [TypeError] of
    the engine when the body is the JSON [null], of which [detail] cannot be
    read, or when [detail] is an object that cannot be converted to a
    string. The page catches the rejection, stores its message as the
    error and leaves the starting state; the banner shows the message
    unless it is empty. One request was issued and no more, whatever the
    server would answer to another; no timeout was scheduled and nothing
    queued. *)
Theorem start_rejection_surfaced
    (server : nat → completion Response) (wording : engine_error → string)
    (config : ConfigFormData) (w : world) (r : Response) :
  server (length (requests w)) = Normal r → ok r = false →
  ∃ e,
    (startAnalysis server (start_request config)
       (clearMessages (setIsStarting true (setError None w)))).1 = Throw e
    ∧ instanceof_Error e = true
    ∧ (∀ x, json r = Throw x → e = Err Error "Unknown error")
    ∧ (∀ body detail,
          json r = Normal body → get_prop body "detail" = Normal detail →
          if truthy detail then
            match ToString detail with
            | Normal text => e = Err Error text
            | Throw _ => e = Raised not_primitive
            end
          else e = Err Error "Failed to start analysis")
    ∧ (json r = Normal VNull → e = Raised (read_of_null "detail"))
    ∧ let w' := handleStartAnalysis server wording config w in
      error w' = Some (message_of wording e)
      ∧ error_banner w' = (if String.eqb (message_of wording e) "" then None
                           else Some (message_of wording e))
      ∧ isStarting w' = false
      ∧ requests w'
        = requests w ++ [{| http_method := "POST"; http_path := "/api/start";
                            http_body := Some (start_request config) |}]
      ∧ timers w' = timers w ∧ next_timer w' = next_timer w
      ∧ console w'
        = console w ++ [{| level := level_log; args := [Req (start_request config)] |};
                        {| level := level_error;
                           args := [Text "Failed to start analysis:"; Exn e] |}].
Proof.
  intros Hsrv Hok.
  destruct (startAnalysis_not_ok server (start_request config)
              (clearMessages (setIsStarting true (setError None w))) r Hsrv Hok)
    as (e & Hstart & Hinst & Hunknown & Hdetail & Hnull).
  exists e. rewrite Hstart.
  split; [reflexivity|]. split; [exact Hinst|]. split; [exact Hunknown|].
  split; [exact Hdetail|]. split; [exact Hnull|].
  unfold error_banner, handleStartAnalysis. unfold_js.
  change {| req_ticker := ticker config;
            req_analysis_date := analysisDate config;
            req_analysts := analysts config;
            req_research_depth := depthToValue (researchDepth config);
            req_llm_provider := llmProvider config;
            req_shallow_model := shallowModel config;
            req_deep_model := deepModel config |} with (start_request config).
  change (setMessages (λ _, []) (setIsStarting true (setError None w)))
    with (clearMessages (setIsStarting true (setError None w))).
  rewrite Hstart, Hinst. fields.
  repeat split; try reflexivity. by rewrite <- app_assoc.
Qed.

Lemma start_rejection_surfaced_witness :
  let conflict := {| ok := false;
                     json := Normal (VObj [("detail", VStr "Analysis already running")]) |} in
  let accept := {| ok := true; json := Normal (VObj [("status", VStr "started")]) |} in
  let server := λ n : nat, match n with 0 => Normal conflict | _ => Normal accept end in
  let config := {| ticker := "TSLA"; analysisDate := "2026-01-05";
                   analysts := {| market := true; social := true; news := false;
                                  fundamentals := false; momentum := false |};
                   researchDepth := standard; llmProvider := "openai";
                   shallowModel := "small"; deepModel := "large" |} in
  server (length (requests streaming_hook)) = Normal conflict
  ∧ ok conflict = false
  ∧ error_banner (handleStartAnalysis server v8_wording config streaming_hook)
    = Some "Analysis already running"
  ∧ length (requests (handleStartAnalysis server v8_wording config streaming_hook)) = 1.
Proof.
  intros conflict accept server config.
  split; [reflexivity|]. split; [reflexivity|].
  destruct (start_rejection_surfaced server v8_wording config streaming_hook conflict
              eq_refl eq_refl)
    as (e & _ & _ & _ & Hdetail & _ & _ & Hbanner & _ & Hreq & _).
  specialize (Hdetail _ (VStr "Analysis already running") eq_refl eq_refl).
  simpl in Hdetail. split.
  - rewrite Hbanner, Hdetail. reflexivity.
  - by rewrite Hreq.
Defined.

(** C8, as the spec has it, fails. For the body [null] the rejection is the
    engine's [TypeError], not an [Error] carrying the server's detail or a
    fallback text; and for the detail [[]] the message is empty and the
    banner shows nothing. *)
Lemma start_rejection_not_displayed :
  let null_body := {| ok := false; json := Normal VNull |} in
  let empty_detail := {| ok := false; json := Normal (VObj [("detail", VArr [])]) |} in
  let config := {| ticker := "TSLA"; analysisDate := "2026-01-05";
                   analysts := {| market := true; social := true; news := false;
                                  fundamentals := false; momentum := false |};
                   researchDepth := standard; llmProvider := "openai";
                   shallowModel := "small"; deepModel := "large" |} in
  (startAnalysis (λ _, Normal null_body) (start_request config) useWebSocket_init).1
  = Throw (Raised (read_of_null "detail"))
  ∧ error (handleStartAnalysis (λ _, Normal null_body) v8_wording config
             useWebSocket_init)
    = Some "Cannot read properties of null (reading 'detail')"
  ∧ error (handleStartAnalysis (λ _, Normal empty_detail) v8_wording config
             useWebSocket_init) = Some ""
  ∧ error_banner (handleStartAnalysis (λ _, Normal empty_detail) v8_wording config
                    useWebSocket_init) = None
  ∧ ∀ wording, ¬ start_rejection_displayed wording.
Proof.
  intros null_body empty_detail config.
  do 4 (split; [reflexivity|]).
  intros wording H.
  destruct (H null_body config eq_refl) as (message & Hrej & _).
  discriminate Hrej.
Qed.

(** * Further properties *)

(** ** Start, stop and configuration requests *)

(** X1. Whatever the server answers, [handleStartAnalysis] empties the log,
    issues one request and touches neither the hook's connection nor its
    [state]. It leaves the page starting, with no error, exactly when the
    response is ok and its body is JSON; an ok response whose body is not
    JSON, a response that is not ok and a request that fails all end with an
    error shown and the starting flag cleared. *)
Theorem start_outcome
    (server : nat → completion Response) (wording : engine_error → string)
    (config : ConfigFormData) (w : world) :
  let w' := handleStartAnalysis server wording config w in
  let shown e := if instanceof_Error e then message_of wording e
                 else "Failed to start analysis" in
  messages w' = []
  ∧ length (requests w') = S (length (requests w))
  ∧ isConnected w' = isConnected w ∧ state w' = state w
  ∧ wsRef w' = wsRef w ∧ sockets w' = sockets w ∧ timers w' = timers w
  ∧ shouldConnectRef w' = shouldConnectRef w
  ∧ match server (length (requests w)) with
    | Normal r =>
        if ok r then
          match json r with
          | Normal _ => error w' = None ∧ isStarting w' = true
          | Throw e => error w' = Some (shown e) ∧ isStarting w' = false
          end
        else (∃ msg, error w' = Some msg) ∧ isStarting w' = false
    | Throw e => error w' = Some (shown e) ∧ isStarting w' = false
    end.
Proof.
  unfold handleStartAnalysis, startAnalysis, fetch. unfold_js. fields.
  destruct (server (length (requests w))) as [r|e]; fields.
  - destruct (ok r); cbn [negb].
    + destruct (json r) as [data|e]; fields; rewrite ?length_app; simpl;
        repeat split; lia.
    + destruct (get_prop _ "detail") as [detail|te]; fields;
        [destruct (ToString _) as [text|raised]; fields|];
        rewrite ?length_app; simpl; repeat split; eauto; lia.
  - rewrite ?length_app; simpl. repeat split; lia.
Qed.


(** X3. After [fetchConfig] the page is no longer loading, whatever
    happened, and one [GET /api/config] was issued. The configuration is
    stored exactly when the response is ok with a JSON body, and then the
    error is left alone; in every other case the configuration is left
    alone and the error shown is the fixed ['Failed to load configuration'],
    not anything the server sent. *)
Theorem fetchConfig_outcome (server : nat → completion Response) (a : page) :
  let a' := fetchConfig server a in
  isLoadingConfig a' = false
  ∧ requests (page_world a')
    = requests (page_world a) ++ [{| http_method := "GET"; http_path := "/api/config";
                                     http_body := None |}]
  ∧ messages (page_world a') = messages (page_world a)
  ∧ isStarting (page_world a') = isStarting (page_world a)
  ∧ match server (length (requests (page_world a))) with
    | Normal {| ok := true; json := Normal data |} =>
        config a' = Some data ∧ error (page_world a') = error (page_world a)
    | _ =>
        config a' = config a
        ∧ error (page_world a') = Some "Failed to load configuration"
    end.
Proof.
  unfold fetchConfig, getConfig, fetch. unfold_js. fields.
  destruct (server (length (requests (page_world a)))) as [[[] [data|e]]|e];
    by repeat split.
Qed.

(** X4. While the page is starting, the form counts as running whatever
    state the hook holds. A status message that carries one of the four
    states of [AnalysisState], once the effect on [state] has run, ends the
    starting phase: the effective state is the state of the message, and
    the form counts as running exactly when that state is ['running']. *)
Theorem status_ends_starting
    (fmt : value → string) (data : value) (s : string) (w : world) :
  has_type data "status" →
  get_prop data "state" = Normal (VStr s) →
  s = "running" ∨ s = "idle" ∨ s = "stopped" ∨ s = "error" →
  (∀ v, isStarting v = true → isRunning v = true)
  ∧ let w' := isStarting_effect (onmessage fmt (Normal data) w) in
    isStarting w' = false
    ∧ effectiveState w' = VStr s
    ∧ isRunning w' = String.eqb s "running"
    ∧ messages w' = messages w ∧ error w' = error w.
Proof.
  intros (props & -> & Hty)%has_type_object Hst Hs. split.
  { intros v Hv. unfold isRunning, effectiveState. by rewrite Hv. }
  rewrite (onmessage_status _ _ _ Hty). simpl in Hst. injection Hst as Hst.
  unfold isStarting_effect, isRunning, effectiveState. fields. rewrite Hst.
  destruct Hs as [-> | [-> | [-> | ->]]]; by repeat split.
Qed.

Lemma status_ends_starting_witness :
  has_type (VObj [("type", VStr "status"); ("state", VStr "stopped")]) "status"
  ∧ get_prop (VObj [("type", VStr "status"); ("state", VStr "stopped")]) "state"
    = Normal (VStr "stopped")
  ∧ effectiveState
      (isStarting_effect
         (onmessage (λ _, "09:30:00")
            (Normal (VObj [("type", VStr "status"); ("state", VStr "stopped")]))
            (setIsStarting true connected_hook)))
    = VStr "stopped".
Proof.
  split; [reflexivity|]. split; [reflexivity|].
  destruct (status_ends_starting (λ _, "09:30:00")
              (VObj [("type", VStr "status"); ("state", VStr "stopped")])
              "stopped" (setIsStarting true connected_hook) eq_refl eq_refl)
    as (_ & _ & Heff & _).
  - right. right. left. reflexivity.
  - exact Heff.
Defined.

(** ** More on the connection of a mounted hook *)

Section MountedFacts.

Variable fmt : value → string.

Lemma onopen_fields w :
  isConnected (onopen w) = true ∧ wsRef (onopen w) = wsRef w
  ∧ sockets (onopen w) = sockets w ∧ now (onopen w) = now w
  ∧ ∀ id due, timers (onopen w) !! id = Some due → timers w !! id = Some due.
Proof.
  unfold onopen. fields. destruct (reconnectTimeoutRef w) as [t|]; fields.
  - repeat split. by intros id due (_ & H)%lookup_delete_Some.
  - by repeat split.
Qed.

(** The flag tells the truth: [isConnected] holds exactly when the socket
    in [wsRef] has opened, whether it is still open or already closing. *)
Lemma mounted_flag w :
  mounted fmt w →
  (isConnected w = true
   ↔ wsRef_readyState w = Some OPEN ∨ wsRef_readyState w = Some CLOSING).
Proof.
  induction 1 as [|e w w' Hm IH Hne Hd].
  { split; [done|]. by intros [|]. }
  pose proof (mounted_inv _ _ Hm) as I.
  destruct e as [s|s frame|s|s|s|id|ms| |]; [| |simpl in Hd..].
  - simpl in Hd. case_bool_decide as Hs; [|done]. injection Hd as <-.
    destruct (onopen_fields (set_readyState s OPEN w)) as (-> & Hr & Hsk & _).
    unfold wsRef_readyState. rewrite Hr, Hsk. fields.
    rewrite (inv_socket _ I _ _ Hs) by done. simpl.
    rewrite list_lookup_insert_eq by (by eapply lookup_lt_Some). split; auto.
  - apply dispatch_message in Hd as [_ ->].
    destruct (onmessage_connection fmt frame w) as (Hc & Hr & _ & _ & Hsk & _).
    unfold wsRef_readyState in *. by rewrite Hc, Hr, Hsk.
  - destruct (sockets w !! s); [|done]. case_bool_decide; [done|].
    by injection Hd as <-.
  - case_bool_decide as Hs; [|done]. injection Hd as <-.
    assert (wsRef w = Some s) as Hr by (by eapply inv_socket).
    assert (isConnected w = true) as Hc.
    { apply IH. left. unfold wsRef_readyState. by rewrite Hr. }
    unfold wsRef_readyState. fields. rewrite Hr. simpl.
    rewrite list_lookup_insert_eq by (by eapply lookup_lt_Some). split; auto.
  - destruct (sockets w !! s) as [st|]; [|done]. case_bool_decide; [done|].
    injection Hd as <-. rewrite onclose_intent by (fields; apply I).
    unfold wsRef_readyState. fields. split; [done|]. by intros [|].
  - destruct (timers w !! id) as [due|] eqn:E; [|done]. case_bool_decide; [|done].
    injection Hd as <-. destruct (inv_timer _ I _ _ E) as [_ Hn].
    rewrite connect_constructs.
    2: { fields. apply I. }
    2: { unfold wsRef_readyState. fields. by rewrite Hn. }
    unfold wsRef_readyState in *. fields. rewrite Hn in IH. simpl in *.
    rewrite lookup_app_r by lia. rewrite Nat.sub_diag. simpl.
    split; [|by intros [|]]. intros Hc. apply IH in Hc. by destruct Hc.
  - by injection Hd as <-.
  - by injection Hd as <-.
  - done.
Qed.

(** Connections are paced: the [n]-th socket is constructed no earlier than
    [n] delays after the first, and a pending retry is due no earlier than
    that. *)
Lemma mounted_pace w :
  mounted fmt w →
  (RECONNECT_DELAY * N.of_nat (length (sockets w) - 1) ≤ now w)%N
  ∧ ∀ id due, timers w !! id = Some due →
              (RECONNECT_DELAY * N.of_nat (length (sockets w)) ≤ due)%N.
Proof.
  induction 1 as [|e w w' Hm [IHn IHt] Hne Hd].
  { split; [done|]. intros id due H. exfalso. revert H. vm_compute. discriminate. }
  pose proof (mounted_inv _ _ Hm) as I.
  destruct e as [s|s frame|s|s|s|id|ms| |]; [| |simpl in Hd..].
  - simpl in Hd. case_bool_decide as Hs; [|done]. injection Hd as <-.
    destruct (onopen_fields (set_readyState s OPEN w)) as (_ & _ & -> & -> & Ht).
    fields. rewrite length_insert. split; [done|].
    intros id due Hl. apply Ht in Hl. fields. by eapply IHt.
  - apply dispatch_message in Hd as [_ ->].
    destruct (onmessage_connection fmt frame w) as (_ & _ & _ & _ & -> & -> & _ & ->).
    done.
  - destruct (sockets w !! s); [|done]. case_bool_decide; [done|].
    by injection Hd as <-.
  - case_bool_decide; [|done]. injection Hd as <-. fields.
    by rewrite length_insert.
  - destruct (sockets w !! s) as [st|] eqn:E; [|done]. case_bool_decide; [done|].
    injection Hd as <-. rewrite onclose_intent by (fields; apply I).
    fields. rewrite length_insert. split; [done|].
    intros id due [(_ & <-)|(_ & Hl)]%lookup_insert_Some; [|by eapply IHt].
    apply lookup_lt_Some in E. unfold RECONNECT_DELAY in *. lia.
  - destruct (timers w !! id) as [due|] eqn:E; [|done]. case_bool_decide; [|done].
    injection Hd as <-. destruct (inv_timer _ I _ _ E) as [Hr Hn].
    rewrite connect_constructs.
    2: { fields. apply I. }
    2: { unfold wsRef_readyState. fields. by rewrite Hn. }
    fields. rewrite length_app. simpl. split.
    + replace (length (sockets w) + 1 - 1) with (length (sockets w)) by lia.
      specialize (IHt _ _ E). unfold RECONNECT_DELAY in *. lia.
    + intros id' due' (Hne' & Hl)%lookup_delete_Some.
      destruct (inv_timer _ I _ _ Hl) as [Hr' _]. congruence.
  - injection Hd as <-. fields. split; [unfold RECONNECT_DELAY in *; lia|done].
  - by injection Hd as <-.
  - done.
Qed.

End MountedFacts.

(** X5. A mounted hook never holds two connections: at any time at most
    one of the sockets it has constructed is not closed, and it is the one in
    [wsRef]. *)
Theorem one_live_socket
    (fmt : value → string) (w : world) (s1 s2 : nat) (st1 st2 : readyState) :
  mounted fmt w →
  sockets w !! s1 = Some st1 → st1 ≠ CLOSED →
  sockets w !! s2 = Some st2 → st2 ≠ CLOSED →
  s1 = s2 ∧ wsRef w = Some s1.
Proof.
  intros I%mounted_inv H1 Hc1 H2 Hc2.
  pose proof (inv_socket _ I _ _ H1 Hc1) as Hr1.
  pose proof (inv_socket _ I _ _ H2 Hc2) as Hr2.
  split; [congruence|done].
Qed.

Lemma one_live_socket_witness :
  let fmt := λ _ : value, "09:29:58" in
  ∃ w,
    run fmt [EvError 0; EvClose 0; EvTick 3000; EvTimeout 1; EvClose 1;
             EvTick 4500; EvTimeout 2; EvOpen 2] streaming_hook = Some w
    ∧ mounted fmt w
    ∧ sockets w = [CLOSED; CLOSED; OPEN]
    ∧ OPEN ≠ CLOSED
    ∧ (∀ s st, sockets w !! s = Some st → st ≠ CLOSED → s = 2)
    ∧ wsRef w = Some 2.
Proof.
  intros fmt.
  assert (sockets <$> run fmt [EvError 0; EvClose 0; EvTick 3000; EvTimeout 1; EvClose 1;
                               EvTick 4500; EvTimeout 2; EvOpen 2] streaming_hook
          = Some [CLOSED; CLOSED; OPEN]) as Hsk by (vm_compute; reflexivity).
  destruct (run fmt [EvError 0; EvClose 0; EvTick 3000; EvTimeout 1; EvClose 1;
                     EvTick 4500; EvTimeout 2; EvOpen 2] streaming_hook)
    as [w|] eqn:Hrun; [|discriminate Hsk].
  injection Hsk as Hsk.
  assert (mounted fmt w) as Hm.
  { apply (mounted_run fmt
             [EvError 0; EvClose 0; EvTick 3000; EvTimeout 1; EvClose 1;
              EvTick 4500; EvTimeout 2; EvOpen 2] streaming_hook);
      [apply streaming_hook_mounted|by repeat constructor|exact Hrun]. }
  assert (sockets w !! 2 = Some OPEN) as Hopen by (by rewrite Hsk).
  exists w. split; [reflexivity|]. split; [exact Hm|]. split; [exact Hsk|].
  split; [discriminate|]. split.
  - intros s st Hs Hst.
    apply (one_live_socket fmt w s 2 st OPEN Hm Hs Hst Hopen). discriminate.
  - apply (one_live_socket fmt w 2 2 OPEN OPEN Hm Hopen); [discriminate|exact Hopen
                                                           |discriminate].
Defined.

(** X6. For a mounted hook [isConnected] is true exactly when the socket in
    [wsRef] has opened and its close event has not come: the socket is open,
    or it is closing because the server has started the closing handshake.
    The flag is never true while connecting or during the wait for a retry,
    and never false on an open connection; but it is still true on a
    connection that is closing. *)
Theorem isConnected_iff_opened (fmt : value → string) (w : world) :
  mounted fmt w →
  (isConnected w = true
   ↔ wsRef_readyState w = Some OPEN ∨ wsRef_readyState w = Some CLOSING)
  ∧ (isConnected w = false
     ↔ wsRef_readyState w = None ∨ wsRef_readyState w = Some CONNECTING)
  ∧ (∀ s w', dispatch fmt (EvClosing s) w = Some w' →
             isConnected w' = true ∧ wsRef_readyState w' = Some CLOSING
             ∧ mounted fmt w').
Proof.
  intros Hm. pose proof (mounted_flag fmt w Hm) as Hflag.
  pose proof (mounted_inv _ _ Hm) as I.
  split; [exact Hflag|]. split.
  - split.
    + intros Hc. destruct (wsRef_readyState w) as [[]|] eqn:E; auto.
      * assert (isConnected w = true) as Ht by (apply Hflag; auto). congruence.
      * assert (isConnected w = true) as Ht by (apply Hflag; auto). congruence.
      * exfalso. unfold wsRef_readyState in E.
        destruct (wsRef w) as [s|] eqn:Er; [|done]. simpl in E.
        destruct (inv_ref _ I _ Er) as (st & Hs & Hst). congruence.
    + intros Hr. destruct (isConnected w) eqn:Hc; [|done].
      destruct Hflag as [Hflag _].
      destruct (Hflag eq_refl) as [Ho|Ho], Hr as [Hr|Hr]; congruence.
  - intros s w' Hd.
    assert (mounted fmt w') as Hm'.
    { apply (mounted_step fmt (EvClosing s) w w' Hm); [discriminate|exact Hd]. }
    pose proof (mounted_flag fmt w' Hm') as Hflag'.
    simpl in Hd. case_bool_decide as Hs; [|done]. injection Hd as <-.
    assert (wsRef w = Some s) as Hr by (by eapply inv_socket).
    assert (wsRef_readyState (set_readyState s CLOSING w) = Some CLOSING) as Hcl.
    { unfold wsRef_readyState. fields. rewrite Hr. simpl.
      apply list_lookup_insert_eq. by eapply lookup_lt_Some. }
    split; [apply Hflag'; by right|]. split; [exact Hcl|exact Hm'].
Qed.

Lemma isConnected_iff_opened_witness :
  let fmt := λ _ : value, "09:29:58" in
  let closing := set_readyState 0 CLOSING streaming_hook in
  mounted fmt streaming_hook
  ∧ dispatch fmt (EvClosing 0) streaming_hook = Some closing
  ∧ wsRef_readyState streaming_hook = Some OPEN
  ∧ isConnected streaming_hook = true
  ∧ wsRef_readyState closing = Some CLOSING
  ∧ isConnected closing = true
  ∧ mounted fmt closing.
Proof.
  intros fmt closing.
  destruct (isConnected_iff_opened fmt streaming_hook streaming_hook_mounted)
    as (Hflag & _ & Hclosing).
  destruct (Hclosing 0 closing eq_refl) as (Hc & Hr & Hm).
  split; [apply streaming_hook_mounted|]. split; [reflexivity|].
  split; [reflexivity|]. split; [apply Hflag; by left|].
  split; [exact Hr|]. split; [exact Hc|exact Hm].
Defined.

(** X7. A mounted hook does not storm the server: the sockets it has
    constructed are at least [RECONNECT_DELAY] apart, so that by the time
    [now] it has constructed at most one, plus one per elapsed delay. *)
Theorem reconnects_are_paced (fmt : value → string) (w : world) :
  mounted fmt w →
  (RECONNECT_DELAY * N.of_nat (length (sockets w) - 1) ≤ now w)%N
  ∧ (N.of_nat (length (sockets w)) ≤ 1 + now w / RECONNECT_DELAY)%N.
Proof.
  intros Hm. destruct (mounted_pace fmt w Hm) as [Hn _]. split; [exact Hn|].
  assert (N.of_nat (length (sockets w) - 1) ≤ now w / RECONNECT_DELAY)%N.
  { apply N.div_le_lower_bound; [done|exact Hn]. }
  lia.
Qed.

Lemma reconnects_are_paced_witness :
  let fmt := λ _ : value, "09:29:58" in
  ∃ w,
    run fmt [EvClose 0; EvTick 3000; EvTimeout 1; EvError 1; EvClose 1;
             EvTick 3000; EvTimeout 2; EvClose 2; EvTick 3000; EvTimeout 3]
      streaming_hook = Some w
    ∧ mounted fmt w
    ∧ length (sockets w) = 4 ∧ now w = 9000%N
    ∧ (RECONNECT_DELAY * N.of_nat (length (sockets w) - 1) ≤ now w)%N
    ∧ (N.of_nat (length (sockets w)) ≤ 1 + now w / RECONNECT_DELAY)%N.
Proof.
  intros fmt.
  assert ((λ w, (length (sockets w), now w))
            <$> run fmt [EvClose 0; EvTick 3000; EvTimeout 1; EvError 1; EvClose 1;
                         EvTick 3000; EvTimeout 2; EvClose 2; EvTick 3000; EvTimeout 3]
                  streaming_hook
          = Some (4, 9000%N)) as Hsk by (vm_compute; reflexivity).
  destruct (run fmt [EvClose 0; EvTick 3000; EvTimeout 1; EvError 1; EvClose 1;
                     EvTick 3000; EvTimeout 2; EvClose 2; EvTick 3000; EvTimeout 3]
              streaming_hook)
    as [w|] eqn:Hrun; [|discriminate Hsk].
  injection Hsk as Hlen Hnow.
  assert (mounted fmt w) as Hm.
  { apply (mounted_run fmt
             [EvClose 0; EvTick 3000; EvTimeout 1; EvError 1; EvClose 1;
              EvTick 3000; EvTimeout 2; EvClose 2; EvTick 3000; EvTimeout 3]
             streaming_hook);
      [apply streaming_hook_mounted|by repeat constructor|exact Hrun]. }
  exists w. split; [reflexivity|]. split; [exact Hm|]. split; [exact Hlen|].
  split; [exact Hnow|]. exact (reconnects_are_paced fmt w Hm).
Defined.

(** ** The form *)

(** X8. The two depth tables are inverse to each other: the option value
    [depthMap] gives for a number of the catalogue is sent back by
    [depthToValue] as that number, every depth has the number [depthMap]
    reads it from, and [depthMap] knows no number but [1], [3] and [5]. *)
Theorem depth_tables_inverse :
  (∀ d, depthMap (depthToValue d) = Some d)
  ∧ (∀ n d, depthMap n = Some d → depthToValue d = n)
  ∧ (∀ n, depthMap n = None ↔ n ≠ 1%N ∧ n ≠ 3%N ∧ n ≠ 5%N).
Proof.
  split; [by intros []|]. split.
  - intros n d. unfold depthMap.
    destruct n as [|[[[]|[]|]|[[]|[]|]|]]; intros [= <-]; reflexivity.
  - intros n. unfold depthMap.
    destruct n as [|[[[]|[]|]|[[]|[]|]|]]; split; try done; intros (? & ? & ?); done.
Qed.

(** X9. When the catalogue has at least one shallow and one deep model for
    a provider, choosing that provider selects its first shallow and its
    first deep model: the form then holds models the catalogue offers for
    its provider, nothing else of the form changes, and the effect that
    initialises the models has nothing left to do. *)
Theorem provider_change_selects_offered
    (config : ApiConfig) (p : string) (prev : ConfigFormData)
    (sm dm : ModelOption) (srest drest : list ModelOption) :
  api_shallow config !! p = Some (sm :: srest) →
  api_deep config !! p = Some (dm :: drest) →
  let formData := handleInputChange (Some config) (change_llmProvider p) prev in
  llmProvider formData = p
  ∧ shallowModel formData = model_value sm
  ∧ deepModel formData = model_value dm
  ∧ models_offered config formData
  ∧ ticker formData = ticker prev ∧ analysisDate formData = analysisDate prev
  ∧ analysts formData = analysts prev ∧ researchDepth formData = researchDepth prev
  ∧ initModels (Some config) formData = formData.
Proof.
  intros Hs Hd. unfold handleInputChange, initModels. simpl.
  rewrite Hs, Hd. simpl.
  split; [done|]. split; [done|]. split; [done|]. split.
  { split; eexists _, _; simpl; (split; [eassumption|]); split;
      try reflexivity; apply list_elem_of_here. }
  do 4 (split; [done|]).
  destruct (negb (String.eqb p "")); [|done].
  rewrite Hs, Hd. reflexivity.
Qed.

Lemma provider_change_selects_offered_witness :
  let config :=
    {| api_tickers := []; api_analysts := []; api_depth := []; api_provider := [];
       api_shallow := {[ "anthropic" := [{| model_name := "Haiku"; model_value := "haiku" |}] ]};
       api_deep := {[ "anthropic" := [{| model_name := "Opus"; model_value := "opus" |}] ]} |} in
  api_shallow config !! "anthropic" = Some [{| model_name := "Haiku"; model_value := "haiku" |}]
  ∧ api_deep config !! "anthropic" = Some [{| model_name := "Opus"; model_value := "opus" |}]
  ∧ shallowModel (handleInputChange (Some config) (change_llmProvider "anthropic")
                    (formData_init "2026-01-05")) = "haiku"
  ∧ deepModel (handleInputChange (Some config) (change_llmProvider "anthropic")
                 (formData_init "2026-01-05")) = "opus".
Proof.
  intros config.
  assert (api_shallow config !! "anthropic"
          = Some [{| model_name := "Haiku"; model_value := "haiku" |}]) as Hs
    by apply lookup_singleton_eq.
  assert (api_deep config !! "anthropic"
          = Some [{| model_name := "Opus"; model_value := "opus" |}]) as Hd
    by apply lookup_singleton_eq.
  split; [exact Hs|]. split; [exact Hd|].
  destruct (provider_change_selects_offered config "anthropic"
              (formData_init "2026-01-05") _ _ _ _ Hs Hd)
    as (_ & Hsm & Hdm & _).
  split; [exact Hsm|exact Hdm].
Defined.

(** X10. The handler and the effect disagree on a provider with models of
    one kind only. The effect sets both models or none: it changes the form
    only when the catalogue has a first shallow and a first deep model for
    the provider of the form, and running it again changes nothing. The
    handler sets each model on its own: a provider without shallow models
    keeps the shallow model of the previous provider, and likewise for the
    deep model; without a configuration it keeps both. *)
Theorem models_reset_each_or_both
    (config : ApiConfig) (p : string) (prev : ConfigFormData) :
  (initModels (Some config) prev = prev
   ∨ (∃ sm dm,
         first_model (api_shallow config !! llmProvider prev) = Some sm
         ∧ first_model (api_deep config !! llmProvider prev) = Some dm
         ∧ shallowModel (initModels (Some config) prev) = model_value sm
         ∧ deepModel (initModels (Some config) prev) = model_value dm))
  ∧ initModels (Some config) (initModels (Some config) prev)
    = initModels (Some config) prev
  ∧ initModels None prev = prev
  ∧ (first_model (api_shallow config !! p) = None →
     shallowModel (handleInputChange (Some config) (change_llmProvider p) prev)
     = shallowModel prev)
  ∧ (first_model (api_deep config !! p) = None →
     deepModel (handleInputChange (Some config) (change_llmProvider p) prev)
     = deepModel prev)
  ∧ (∀ sm, first_model (api_shallow config !! p) = Some sm →
           shallowModel (handleInputChange (Some config) (change_llmProvider p) prev)
           = model_value sm)
  ∧ (∀ dm, first_model (api_deep config !! p) = Some dm →
           deepModel (handleInputChange (Some config) (change_llmProvider p) prev)
           = model_value dm)
  ∧ handleInputChange None (change_llmProvider p) prev
    = set_field (change_llmProvider p) prev.
Proof.
  split; [|split; [|split; [done|]]].
  - unfold initModels. destruct (negb _); [|by left].
    destruct (first_model (api_shallow config !! llmProvider prev)) as [sm|] eqn:Es;
      [|by left].
    destruct (first_model (api_deep config !! llmProvider prev)) as [dm|] eqn:Ed;
      [|by left].
    right. by exists sm, dm.
  - unfold initModels. destruct (negb (String.eqb (llmProvider prev) "")) eqn:Ep; [|by rewrite Ep].
    destruct (first_model (api_shallow config !! llmProvider prev)) as [sm|] eqn:Es;
      [|by rewrite Ep, Es].
    destruct (first_model (api_deep config !! llmProvider prev)) as [dm|] eqn:Ed;
      [|by rewrite Ep, Es, Ed].
    simpl. by rewrite Ep, Es, Ed.
  - unfold handleInputChange.
    repeat split.
    + intros ->. by destruct (first_model (api_deep config !! p)).
    + intros ->. by destruct (first_model (api_shallow config !! p)).
    + intros sm ->. by destruct (first_model (api_deep config !! p)).
    + intros dm ->. by destruct (first_model (api_shallow config !! p)).
Qed.


(** ** The output panel on concrete lines *)

Example scenario_renderLine :
  renderLine "  ========  " = terminal_divider
  ∧ renderLine "_-_-" = terminal_rule
  ∧ renderLine "===" = terminal_line [span "==="]
  ∧ renderLine "   " = terminal_spacer
  ∧ renderLine " FINAL TRADING DECISION " = terminal_heading "FINAL TRADING DECISION"
  ∧ renderLine "Final Decision: **BUY** now"
    = terminal_line [span "Final Decision: "; strong "BUY"; span " now"]
  ∧ renderLine "BUY" = terminal_line [span "BUY"].
Proof. repeat split; vm_compute; reflexivity. Qed.

Example scenario_parseInline :
  split_bold "**a****b**" = [""; "**a**"; ""; "**b**"; ""]
  ∧ split_bold "" = [""]
  ∧ split_bold "a ** b" = ["a ** b"]
  ∧ split_bold "***a***" = ["*"; "**a**"; "*"]
  ∧ parseInline "****" = [strong ""]
  ∧ parseInline "***" = [strong ""]
  ∧ parseInline "**a* **" = [strong "a* "]
  ∧ parseInline "x **a b** y **c**"
    = [span "x "; strong "a b"; span " y "; strong "c"; span ""].
Proof. repeat split; vm_compute; reflexivity. Qed.

(** ** Strings *)

Lemma str_app_cons c s t : String c s +:+ t = String c (s +:+ t).
Proof. reflexivity. Qed.

Lemma str_app_nil_l s : "" +:+ s = s.
Proof. reflexivity. Qed.

Lemma str_app_nil_r s : s +:+ "" = s.
Proof. induction s as [|c s IH]; [done|]. by rewrite str_app_cons, IH. Qed.

Lemma str_app_assoc s t u : (s +:+ t) +:+ u = s +:+ (t +:+ u).
Proof. induction s as [|c s IH]; [done|]. by rewrite !str_app_cons, IH. Qed.

Lemma str_length_app s t :
  String.length (s +:+ t) = String.length s + String.length t.
Proof. induction s as [|c s IH]; [done|]. rewrite str_app_cons. simpl. by rewrite IH. Qed.

Lemma all_chars_app p s t :
  all_chars p (s +:+ t) = all_chars p s && all_chars p t.
Proof.
  induction s as [|c s IH]; [done|]. rewrite str_app_cons. simpl.
  by rewrite IH, andb_assoc.
Qed.

Lemma without_stars_app s t :
  without_stars (s +:+ t) = without_stars s +:+ without_stars t.
Proof.
  induction s as [|c s IH]; [done|]. rewrite str_app_cons. simpl.
  destruct (Ascii.eqb c "*"); by rewrite IH.
Qed.

Lemma prefix_app x s : String.prefix x (x +:+ s) = true.
Proof.
  induction x as [|c x IH]; [by destruct s|]. rewrite str_app_cons. simpl.
  by destruct (ascii_dec c c).
Qed.

Lemma prefix_split x s : String.prefix x s = true → ∃ r, s = x +:+ r.
Proof.
  revert s. induction x as [|c x IH]; intros s; [by exists s|].
  destruct s as [|d s]; [done|]. simpl.
  destruct (ascii_dec c d) as [->|]; [|done].
  intros [r ->]%IH. by exists r.
Qed.


Lemma endsWith_split x s : endsWith x s = true → ∃ pre, s = pre +:+ x.
Proof.
  induction s as [|c s IH]; simpl.
  - rewrite orb_false_r. intros ->%String.eqb_eq. by exists "".
  - intros [->%String.eqb_eq|[pre ->]%IH]%orb_true_iff; [by exists ""|].
    by exists (String c pre).
Qed.

Lemma substring_0_app a b : String.substring 0 (String.length a) (a +:+ b) = a.
Proof.
  induction a as [|c a IH]; [by destruct b|]. rewrite str_app_cons. simpl. by rewrite IH.
Qed.

Lemma slice_of_marked x : slice_2_2 ("**" +:+ x +:+ "**") = x.
Proof.
  unfold slice_2_2. rewrite !str_length_app. simpl.
  replace (String.length x + 2 - 2) with (String.length x) by lia.
  rewrite str_app_nil_l. apply substring_0_app.
Qed.

(** ** Bold spans *)

Lemma span_no_star_spec s run rest :
  span_no_star s = (run, rest) →
  s = run +:+ rest ∧ all_chars (λ c, negb (Ascii.eqb c "*")) run = true.
Proof.
  revert run rest. induction s as [|c s IH]; intros run rest; simpl.
  - by intros [= <- <-].
  - destruct (Ascii.eqb c "*") eqn:Ec; [by intros [= <- <-]|].
    destruct (span_no_star s) as [run' rest']. intros [= <- <-].
    destruct (IH _ _ eq_refl) as [-> Hall]. split; [done|]. simpl. by rewrite Ec.
Qed.

(** A match is two stars, a run without stars that is not empty, and two
    stars; the text is the match followed by the rest. *)
Lemma match_bold_spec s m rest :
  match_bold s = Some (m, rest) →
  s = m +:+ rest
  ∧ ∃ x, m = "**" +:+ x +:+ "**" ∧ x ≠ ""
         ∧ all_chars (λ c, negb (Ascii.eqb c "*")) x = true.
Proof.
  unfold match_bold. destruct s as [|c1 [|c2 r]]; try done.
  destruct (Ascii.eqb c1 "*") eqn:E1; [|done].
  destruct (Ascii.eqb c2 "*") eqn:E2; [|done]. simpl.
  apply Ascii.eqb_eq in E1 as ->. apply Ascii.eqb_eq in E2 as ->.
  destruct (span_no_star r) as [run r'] eqn:E.
  destruct run as [|c run]; [done|]. destruct r' as [|d1 [|d2 rest']]; try done.
  destruct (Ascii.eqb d1 "*") eqn:E3; [|done].
  destruct (Ascii.eqb d2 "*") eqn:E4; [|done]. simpl.
  apply Ascii.eqb_eq in E3 as ->. apply Ascii.eqb_eq in E4 as ->.
  intros [= <- <-]. destruct (span_no_star_spec _ _ _ E) as [-> Hall].
  split.
  - rewrite !str_app_assoc. reflexivity.
  - by exists (String c run).
Qed.

Lemma match_bold_shorter s m rest :
  match_bold s = Some (m, rest) → String.length rest < String.length s.
Proof.
  intros (-> & x & -> & _)%match_bold_spec. rewrite !str_length_app. simpl. lia.
Qed.

(** With fuel for every character left, the pieces put together are the
    pending text and the text left. *)
Lemma split_bold_loop_concat fuel : ∀ pending s,
  String.length s < fuel →
  foldr String.append "" (split_bold_loop fuel pending s) = pending +:+ s.
Proof.
  induction fuel as [|fuel IH]; intros pending s Hlen; [lia|].
  destruct s as [|c r]; [cbn; by rewrite !str_app_nil_r|].
  cbn [split_bold_loop]. destruct (match_bold (String c r)) as [[m rest]|] eqn:E.
  - pose proof (match_bold_shorter _ _ _ E) as Hshort.
    destruct (match_bold_spec _ _ _ E) as [Hs _].
    cbn [foldr]. rewrite IH by lia. by rewrite str_app_nil_l, Hs.
  - rewrite IH by (simpl in Hlen; lia). by rewrite str_app_assoc.
Qed.


(** Without two stars in a row there is one piece, the text. *)
Lemma split_bold_loop_plain fuel : ∀ pending s,
  String.length s < fuel → includes "**" s = false →
  split_bold_loop fuel pending s = [pending +:+ s].
Proof.
  induction fuel as [|fuel IH]; intros pending s Hlen Hinc; [lia|].
  destruct s as [|c r]; [cbn; by rewrite !str_app_nil_r|].
  cbn [split_bold_loop].
  cbn [includes] in Hinc. apply orb_false_iff in Hinc as [Hpre Hinc].
  assert (match_bold (String c r) = None) as ->.
  { destruct (match_bold (String c r)) as [[m rest]|] eqn:E; [|done].
    destruct (match_bold_spec _ _ _ E) as (Hs & x & -> & _).
    rewrite Hs, !str_app_assoc in Hpre.
    change ("**" +:+ x +:+ "**" +:+ rest) with ("**" +:+ (x +:+ "**" +:+ rest)) in Hpre.
    by rewrite prefix_app in Hpre. }
  rewrite IH by (simpl in Hlen; lia || done). by rewrite str_app_assoc.
Qed.

(** What [parseInline] shows of a piece that starts and ends with two stars
    is the piece without four of its stars, or without all three or two. *)
Lemma slice_without_stars part :
  startsWith "**" part = true → endsWith "**" part = true →
  without_stars (slice_2_2 part) = without_stars part.
Proof.
  intros [q ->]%prefix_split [pre Hpre]%endsWith_split.
  rewrite !str_app_cons, str_app_nil_l in Hpre.
  destruct pre as [|c1 [|c2 pre]];
    rewrite ?str_app_cons, ?str_app_nil_l in Hpre.
  - injection Hpre as ->. reflexivity.
  - injection Hpre as <- ->. reflexivity.
  - injection Hpre as <- <- ->.
    change ("**" +:+ pre +:+ "**") with ("**" +:+ (pre +:+ "**")).
    rewrite slice_of_marked. rewrite !without_stars_app. simpl.
    by rewrite str_app_nil_r.
Qed.

Lemma visible_text_parts parts :
  without_stars
    (visible_text
       ((λ part, if startsWith "**" part && endsWith "**" part
                 then strong (slice_2_2 part) else span part) <$> parts))
  = without_stars (foldr String.append "" parts).
Proof.
  induction parts as [|part parts IH]; [done|].
  cbn [fmap list_fmap foldr visible_text] in *.
  destruct (startsWith "**" part) eqn:Es; simpl;
    [destruct (endsWith "**" part) eqn:Ee; simpl|];
    rewrite !without_stars_app; unfold visible_text in IH; rewrite IH; [|done..].
  by rewrite slice_without_stars.
Qed.

(** X12. The pieces [split] cuts a text into, put together, are the text;
    and [parseInline] never drops, adds or moves a character other than a
    star: what it shows is, stars apart, the text. *)
Theorem parseInline_keeps_text (text : string) :
  foldr String.append "" (split_bold text) = text
  ∧ without_stars (visible_text (parseInline text)) = without_stars text.
Proof.
  assert (foldr String.append "" (split_bold text) = text) as Hsplit.
  { unfold split_bold. rewrite split_bold_loop_concat by lia. done. }
  split; [exact Hsplit|].
  unfold parseInline. by rewrite visible_text_parts, Hsplit.
Qed.



(** X14. A line without two stars in a row is shown as it is, in one
    [span]. *)
Theorem plain_text_unchanged (text : string) :
  includes "**" text = false →
  parseInline text = [span text] ∧ visible_text (parseInline text) = text.
Proof.
  intros Hinc. unfold parseInline, split_bold.
  rewrite split_bold_loop_plain by (lia || done).
  rewrite str_app_nil_l. cbn [fmap list_fmap].
  assert (startsWith "**" text = false) as ->.
  { destruct text; [done|]. cbn [includes] in Hinc.
    by apply orb_false_iff in Hinc as [? _]. }
  simpl. by rewrite str_app_nil_r.
Qed.

Lemma plain_text_unchanged_witness :
  includes "**" "Fetching news for *TSLA*..." = false
  ∧ parseInline "Fetching news for *TSLA*..." = [span "Fetching news for *TSLA*..."].
Proof.
  split; [reflexivity|].
  apply (plain_text_unchanged "Fetching news for *TSLA*..."). reflexivity.
Defined.

(** ** Lines *)

Lemma white_not_star c : is_white c = true → Ascii.eqb c "*" = false.
Proof. destruct c as [[] [] [] [] [] [] [] []]; done. Qed.

Lemma heading_char_not_star c : heading_char c = true → Ascii.eqb c "*" = false.
Proof. destruct c as [[] [] [] [] [] [] [] []]; vm_compute; done. Qed.

Lemma white_not_star' c : is_white c = true → negb (Ascii.eqb c "*") = true.
Proof. by intros ->%white_not_star. Qed.

Lemma heading_char_not_star' c :
  heading_char c = true → negb (Ascii.eqb c "*") = true.
Proof. by intros ->%heading_char_not_star. Qed.

Lemma all_chars_impl (p q : ascii → bool) s :
  (∀ c, p c = true → q c = true) → all_chars p s = true → all_chars q s = true.
Proof.
  intros Hpq. induction s as [|c s IH]; [done|]. simpl.
  intros [Hc Hs]%andb_true_iff. by rewrite (Hpq _ Hc), IH.
Qed.

Lemma no_star_no_marker s :
  all_chars (λ c, negb (Ascii.eqb c "*")) s = true → includes "**" s = false.
Proof.
  induction s as [|c s IH]; [done|]. cbn [all_chars includes].
  intros [Hc Hs]%andb_true_iff. rewrite (IH Hs), orb_false_r.
  change (String.prefix "**" (String c s))
    with (if ascii_dec "*" c then String.prefix "*" s else false).
  destruct (ascii_dec "*" c) as [<-|]; done.
Qed.

Lemma trimStart_spec s :
  ∃ l, s = l +:+ trimStart s ∧ all_chars is_white l = true.
Proof.
  induction s as [|c s (l & Hs & Hl)]; [by exists ""|]. simpl.
  destruct (is_white c) eqn:Ec; [|by exists ""].
  exists (String c l). rewrite str_app_cons, <- Hs. simpl. by rewrite Ec.
Qed.

Lemma trimEnd_spec s :
  ∃ r, s = trimEnd s +:+ r ∧ all_chars is_white r = true.
Proof.
  induction s as [|c s (r & Hs & Hr)]; [by exists ""|]. simpl.
  destruct (trimEnd s) as [|d t] eqn:Et.
  - destruct (is_white c) eqn:Ec.
    + exists (String c s). split; [done|]. simpl. rewrite Ec. by rewrite Hs.
    + exists s. split; [done|]. by rewrite Hs.
  - exists r. by rewrite str_app_cons, <- Hs.
Qed.

Lemma trimStart_white s : all_chars is_white s = true → trimStart s = "".
Proof.
  induction s as [|c s IH]; [done|]. simpl. intros [-> Hs]%andb_true_iff. auto.
Qed.

Lemma trimEnd_white s : all_chars is_white s = true → trimEnd s = "".
Proof.
  induction s as [|c s IH]; [done|]. simpl. intros [-> Hs]%andb_true_iff.
  by rewrite IH.
Qed.

Lemma trimStart_app s r :
  trimStart (s +:+ r)
  = if all_chars is_white s then trimStart r else trimStart s +:+ r.
Proof.
  induction s as [|c s IH]; [done|]. rewrite str_app_cons. simpl.
  by destruct (is_white c).
Qed.

Lemma trimEnd_app_white s r :
  all_chars is_white r = true → trimEnd (s +:+ r) = trimEnd s.
Proof.
  intros Hr. induction s as [|c s IH]; [by apply trimEnd_white|].
  rewrite str_app_cons. simpl. by rewrite IH.
Qed.

(** White space around a line does not change what [trim] leaves. *)
Lemma trim_pad l s r :
  all_chars is_white l = true → all_chars is_white r = true →
  trim (l +:+ s +:+ r) = trim s.
Proof.
  intros Hl Hr. unfold trim. rewrite trimStart_app, Hl, trimStart_app.
  destruct (all_chars is_white s) eqn:Es.
  - by rewrite (trimStart_white r), (trimStart_white s).
  - by apply trimEnd_app_white.
Qed.

(** A line is its [trim] between two runs of white space. *)
Lemma trim_spec s :
  ∃ l r, s = l +:+ trim s +:+ r
         ∧ all_chars is_white l = true ∧ all_chars is_white r = true.
Proof.
  destruct (trimStart_spec s) as (l & Hs & Hl).
  destruct (trimEnd_spec (trimStart s)) as (r & Ht & Hr).
  exists l, r. unfold trim. by rewrite <- Ht.
Qed.

(** A line whose [trim] is a heading has no star at all. *)
Lemma heading_no_marker line :
  is_heading (trim line) = true → includes "**" line = false.
Proof.
  intros Hh. destruct (trim_spec line) as (l & r & Hline & Hl & Hr).
  apply no_star_no_marker. rewrite Hline, !all_chars_app.
  rewrite (all_chars_impl _ _ _ white_not_star' Hl).
  rewrite (all_chars_impl _ _ _ white_not_star' Hr).
  rewrite andb_true_r. simpl.
  destruct (trim line) as [|c t]; [done|]. simpl in *.
  apply andb_true_iff in Hh as [[Hc Ht]%andb_true_iff _].
  rewrite (all_chars_impl _ _ _ heading_char_not_star' Ht), andb_true_r.
  apply heading_char_not_star'. unfold heading_char. by rewrite Hc.
Qed.

Lemma divider_excludes t :
  is_divider t = true →
  is_rule t = false ∧ String.eqb t "" = false ∧ is_heading t = false.
Proof.
  destruct t as [|c r]; [done|]. unfold is_divider. cbn [all_chars].
  intros [[Hc _]%andb_true_iff _]%andb_true_iff.
  apply Ascii.eqb_eq in Hc as ->. done.
Qed.

Lemma rule_excludes t :
  is_rule t = true → String.eqb t "" = false ∧ is_heading t = false.
Proof.
  destruct t as [|c r]; [done|]. unfold is_rule. cbn [all_chars].
  intros [[Hc _]%andb_true_iff _]%andb_true_iff.
  apply orb_true_iff in Hc as [Hc|Hc]; apply Ascii.eqb_eq in Hc as ->; done.
Qed.

(** X15. What [renderLine] makes of a line is decided by one pattern
    alone: the four patterns exclude each other on the trimmed line, so the
    order of the tests does not matter, and the test for two stars after
    the heading pattern never decides, since a heading has no star. *)
Theorem renderLine_by_pattern (line : string) :
  (is_heading (trim line) = true → includes "**" line = false)
  ∧ (renderLine line = terminal_divider ↔ is_divider (trim line) = true)
  ∧ (renderLine line = terminal_rule ↔ is_rule (trim line) = true)
  ∧ (renderLine line = terminal_spacer ↔ trim line = "")
  ∧ (∀ h, renderLine line = terminal_heading h
          ↔ h = trim line ∧ is_heading (trim line) = true)
  ∧ (∀ children, renderLine line = terminal_line children
                 ↔ children = parseInline line
                   ∧ is_divider (trim line) = false ∧ is_rule (trim line) = false
                   ∧ trim line ≠ "" ∧ is_heading (trim line) = false).
Proof.
  split; [apply heading_no_marker|].
  unfold renderLine.
  destruct (is_divider (trim line)) eqn:Ed.
  { destruct (divider_excludes _ Ed) as (Hr & He%String.eqb_neq & Hh).
    rewrite Hr, Hh.
    repeat split; try done; intros; destruct_and?; simplify_eq; by repeat split. }
  destruct (is_rule (trim line)) eqn:Er.
  { destruct (rule_excludes _ Er) as (He%String.eqb_neq & Hh).
    rewrite Hh.
    repeat split; try done; intros; destruct_and?; simplify_eq; by repeat split. }
  destruct (String.eqb (trim line) "") eqn:Ee.
  { apply String.eqb_eq in Ee. rewrite Ee.
    repeat split; try done; intros; destruct_and?; simplify_eq; by repeat split. }
  apply String.eqb_neq in Ee.
  destruct (is_heading (trim line)) eqn:Eh.
  { rewrite (heading_no_marker _ Eh). simpl.
    repeat split; try done; intros; destruct_and?; simplify_eq; by repeat split. }
  simpl.
  repeat split; try done; intros; destruct_and?; simplify_eq; by repeat split.
Qed.

(** X16. White space around a line changes neither what [trim] leaves nor
    the kind of element the line becomes; a divider, a rule, a spacer and a
    heading come out the same, and a line stays a line. *)
Theorem renderLine_ignores_padding (l line r : string) :
  all_chars is_white l = true →
  all_chars is_white r = true →
  trim (l +:+ line +:+ r) = trim line
  ∧ match renderLine line with
    | terminal_line _ =>
        renderLine (l +:+ line +:+ r) = terminal_line (parseInline (l +:+ line +:+ r))
    | element => renderLine (l +:+ line +:+ r) = element
    end.
Proof.
  intros Hl Hr. pose proof (trim_pad l line r Hl Hr) as Ht.
  split; [exact Ht|].
  unfold renderLine. rewrite Ht.
  destruct (is_divider (trim line)); [done|].
  destruct (is_rule (trim line)); [done|].
  destruct (String.eqb (trim line) ""); [done|].
  destruct (is_heading (trim line)) eqn:Eh; [|done].
  rewrite (heading_no_marker line Eh).
  rewrite (heading_no_marker (l +:+ line +:+ r)) by (by rewrite Ht).
  done.
Qed.

Lemma renderLine_ignores_padding_witness :
  all_chars is_white "  " = true
  ∧ all_chars is_white (String "009" (String "010" "")) = true
  ∧ renderLine ("  " +:+ "FINAL TRADING DECISION" +:+ String "009" (String "010" ""))
    = terminal_heading "FINAL TRADING DECISION".
Proof.
  split; [reflexivity|]. split; [reflexivity|].
  apply (renderLine_ignores_padding "  " "FINAL TRADING DECISION"
           (String "009" (String "010" "")) eq_refl eq_refl).
Defined.

(** X17. The terminal shows the placeholder exactly when there is no log
    line, and otherwise one element per line, in the order of the log.
    Pressing start therefore brings the placeholder back, worded by the
    connection flag, whatever the server answers. A log message whose [ts]
    and [message] can be converted adds one element after those shown and
    changes none of them; one whose [ts] cannot be converted leaves the
    panel as it is. *)
Theorem panel_follows_log
    (fmt : value → string) (server : nat → completion Response)
    (wording : engine_error → string)
    (config : ConfigFormData) (props : list (string * value))
    (date : value) (text : string) (w : world) :
  own_property props "type" = VStr "log" →
  ToPrimitive (own_property props "ts") = Normal date →
  ToString (own_property props "message") = Normal text →
  (∀ c msgs, (∃ text, panel_terminal (OutputPanel c msgs) = terminal_placeholder text)
             ↔ msgs = [])
  ∧ (∀ c msgs blocks, panel_terminal (OutputPanel c msgs) = terminal_blocks blocks →
                      blocks = renderLine <$> msgs ∧ length blocks = length msgs)
  ∧ (let w' := handleStartAnalysis server wording config w in
     panel_terminal (OutputPanel (isConnected w') (messages w'))
     = terminal_placeholder
         (if isConnected w then "Connected. Waiting for analysis to start..."
          else "Waiting to connect..."))
  ∧ (let w' := onmessage fmt (Normal (VObj props)) w in
     panel_terminal (OutputPanel (isConnected w') (messages w'))
     = terminal_blocks
         ((renderLine <$> messages w)
          ++ [renderLine ("[" +:+ fmt date +:+ "] " +:+ text)]))
  ∧ (∀ other e,
        own_property other "type" = VStr "log" →
        ToPrimitive (own_property other "ts") = Throw e →
        let w' := onmessage fmt (Normal (VObj other)) w in
        OutputPanel (isConnected w') (messages w')
        = OutputPanel (isConnected w) (messages w)).
Proof.
  intros Hty Hdate Htext. split; [|split; [|split; [|split]]].
  - intros c [|m msgs]; simpl; split; try done.
    + by eexists.
    + by intros [text' H].
  - intros c [|m msgs] blocks; simpl; [done|]. intros [= <-].
    split; [done|]. simpl. by rewrite length_fmap.
  - unfold handleStartAnalysis, startAnalysis, fetch. unfold_js. fields.
    destruct (server (length (requests w))) as [r|e]; fields; [|done].
    destruct (ok r); cbn [negb].
    + by destruct (json r).
    + destruct (get_prop _ "detail") as [detail|te]; [|done].
      by destruct (ToString (if truthy detail then detail else _)).
  - rewrite (onmessage_log _ _ _ _ _ Hty Hdate Htext). fields.
    unfold OutputPanel. cbn [panel_terminal].
    destruct (messages w) as [|m ms]; [done|].
    cbn [app]. f_equal. by rewrite !fmap_cons, fmap_app.
  - intros other e Hother Hbad.
    by rewrite (onmessage_log_date _ _ _ _ Hother Hbad).
Qed.

Lemma panel_follows_log_witness :
  let lg := [("type", VStr "log"); ("message", VStr "====");
             ("ts", VStr "2026-01-05T09:30:00Z")] in
  own_property lg "type" = VStr "log"
  ∧ ToPrimitive (own_property lg "ts") = Normal (VStr "2026-01-05T09:30:00Z")
  ∧ ToString (own_property lg "message") = Normal "===="
  ∧ panel_terminal
      (OutputPanel true
         (messages (onmessage (λ _, "09:30:00") (Normal (VObj lg)) streaming_hook)))
    = terminal_blocks [terminal_line [span "[09:29:58] Fetching market data..."];
                       terminal_line [span "[09:30:00] ===="]].
Proof.
  intros lg.
  split; [reflexivity|]. split; [reflexivity|]. split; [reflexivity|].
  destruct (panel_follows_log (λ _, "09:30:00") (λ _, Throw (Other VNull)) v8_wording
              (formData_init "2026-01-05") lg (VStr "2026-01-05T09:30:00Z") "===="
              streaming_hook eq_refl eq_refl eq_refl)
    as (_ & _ & _ & Hadds & _).
  etrans; [exact Hadds|]. vm_compute. reflexivity.
Defined.

(** ** What the panel makes of the log of the hook *)

Section LogFacts.

Variable fmt : value → string.

(** A frame leaves the entries of the log starting with a bracket. *)
Lemma onmessage_bracket frame w :
  Forall (λ m, startsWith "[" m = true) (messages w) →
  Forall (λ m, startsWith "[" m = true) (messages (onmessage fmt frame w)).
Proof.
  intros Hall. destruct frame as [data|e]; [|done].
  unfold_onmessage. onmessage_cases; fields; try done;
    (apply Forall_app; split; [done|]);
    (constructor; [apply prefix_app|constructor]).
Qed.

Lemma mounted_bracket w :
  mounted fmt w → Forall (λ m, startsWith "[" m = true) (messages w).
Proof.
  induction 1 as [|e w w' Hm IH Hne Hd]; [by constructor|].
  destruct e as [s|s frame|s|s|s|id|ms| |]; [| |simpl in Hd..].
  - simpl in Hd. case_bool_decide; [|done]. injection Hd as <-.
    by destruct (handlers_keep_messages (set_readyState s OPEN w)) as (_ & -> & _).
  - apply dispatch_message in Hd as [_ ->]. by apply onmessage_bracket.
  - destruct (sockets w !! s); [|done]. case_bool_decide; [done|]. by injection Hd as <-.
  - case_bool_decide; [|done]. by injection Hd as <-.
  - destruct (sockets w !! s); [|done]. case_bool_decide; [done|]. injection Hd as <-.
    by destruct (handlers_keep_messages (set_readyState s CLOSED w)) as (-> & _).
  - destruct (timers w !! id); [|done]. case_bool_decide; [|done]. injection Hd as <-.
    by destruct (handlers_keep_messages (clearTimeout id w)) as (_ & _ & _ & -> & _).
  - by injection Hd as <-.
  - injection Hd as <-. by constructor.
  - done.
Qed.

End LogFacts.

Lemma trimEnd_cons c r :
  is_white c = false → ∃ r', trimEnd (String c r) = String c r'.
Proof. intros Hc. simpl. rewrite Hc. destruct (trimEnd r); by eexists. Qed.

(** A line that starts with a bracket is a plain line. *)
Lemma bracket_line m :
  startsWith "[" m = true → renderLine m = terminal_line (parseInline m).
Proof.
  intros [rest ->]%prefix_split.
  destruct (trimEnd_cons "[" rest eq_refl) as [r' Ht].
  unfold renderLine, trim. rewrite str_app_cons, str_app_nil_l.
  cbn [trimStart is_white]. rewrite Ht. reflexivity.
Qed.

(** X18. Every entry of the log of a mounted hook starts with the bracket
    of its time stamp. None of them is therefore a divider, a rule, a
    spacer or a heading for [renderLine]: the panel shows every entry of
    the log as a plain line. *)
Theorem log_entries_are_plain_lines (fmt : value → string) (w : world) (m : string) :
  mounted fmt w → m ∈ messages w →
  (∃ rest, m = "[" +:+ rest)
  ∧ renderLine m = terminal_line (parseInline m)
  ∧ panel_terminal (OutputPanel (isConnected w) (messages w))
    = terminal_blocks ((λ m, terminal_line (parseInline m)) <$> messages w).
Proof.
  intros Hm Hin. pose proof (mounted_bracket fmt w Hm) as Hall.
  pose proof (proj1 (Forall_forall _ _) Hall m Hin) as Hb. cbv beta in Hb.
  split; [by apply prefix_split|]. split; [by apply bracket_line|].
  unfold OutputPanel. cbn [panel_terminal].
  destruct (messages w) as [|m0 ms] eqn:E; [by apply elem_of_nil in Hin|].
  f_equal. apply Forall_fmap_ext.
  eapply Forall_impl; [exact Hall|]. intros x Hx. by apply bracket_line.
Qed.

Lemma log_entries_are_plain_lines_witness :
  let w := onmessage (λ _, "09:30:00")
             (Normal (VObj [("type", VStr "log"); ("message", VStr "========");
                            ("ts", VStr "t")]))
             connected_hook in
  mounted (λ _, "09:30:00") w
  ∧ "[09:30:00] ========" ∈ messages w
  ∧ renderLine "[09:30:00] ========"
    = terminal_line (parseInline "[09:30:00] ========").
Proof.
  intros w.
  assert (mounted (λ _, "09:30:00") w) as Hm.
  { apply (mounted_step _ (EvMessage 0 (Normal (VObj [("type", VStr "log");
                                                       ("message", VStr "========");
                                                       ("ts", VStr "t")])))
             connected_hook); [|discriminate|reflexivity].
    apply (mounted_step _ (EvOpen 0) (mount useWebSocket_init));
      [apply mounted_mount|discriminate|reflexivity]. }
  assert ("[09:30:00] ========" ∈ messages w) as Hin by apply list_elem_of_here.
  split; [exact Hm|]. split; [exact Hin|].
  destruct (log_entries_are_plain_lines _ w _ Hm Hin) as (_ & Hline & _).
  exact Hline.
Defined.
